(** * OCI free-tier instance acquisition: model of [main.py]

    A shallow embedding of [OciManager] (the provider-facing half of
    [main.py]) and proofs about its error handling, availability-domain
    rotation, existing-instance selection and confirmation poll.

    The provider is an input: every API method has a queue of scripted
    responses, and each call takes the next one.  A run over a finite
    script is a finite prefix of the real run; a call that finds its queue
    empty yields [Blocked].  Calls and sleeps are recorded in a trace. *)

From Stdlib Require Import String Ascii List ZArith Bool Lia Arith.
Import ListNotations.
Open Scope string_scope.

(** ** Constants *)

Definition ARM_SHAPE : string := "VM.Standard.A1.Flex".
Definition E2_MICRO_SHAPE : string := "VM.Standard.E2.1.Micro".
Definition VALID_SHAPES : list string := [ARM_SHAPE; E2_MICRO_SHAPE].

(** ** Python string operations *)

Module PyStr.

(** [needle in hay] on two [str] values. *)
Fixpoint contains (needle hay : string) : bool :=
  String.prefix needle hay ||
  match hay with
  | EmptyString => false
  | String _ rest => contains needle rest
  end.

(** [s.endswith(suffix)]. *)
Fixpoint endswith (s suffix : string) : bool :=
  String.eqb s suffix ||
  match s with
  | EmptyString => false
  | String _ rest => endswith rest suffix
  end.

(** [x in xs] on a list of strings. *)
Definition mem (x : string) (xs : list string) : bool :=
  existsb (String.eqb x) xs.

(** Truthiness of an optional string: [None] and the empty string are falsy. *)
Definition truthy (s : option string) : bool :=
  match s with
  | Some (String _ _) => true
  | _ => false
  end.

End PyStr.

(** ** Provider errors and exceptions *)

(** [oci.exceptions.ServiceError]: the fields the manager reads.  The SDK
    stores whatever message the response carried, which may be [None]. *)
Record ServiceError : Type := mkServiceError {
  status : Z;
  code : string;
  message : option string
}.

(** The [RuntimeError]s raised by [OciManager], one constructor per raise
    site. *)
Inductive RuntimeErrorSite : Type :=
| NoAvailabilityDomains (patterns : list string)
    (* "No availability domains found matching patterns: {free_ad_list}" *)
| NoSubnets
    (* "No subnets found in the compartment. ..." *)
| NoImage (os os_version : string)
    (* "No image found for OS '{os}' version '{os_version}'. ..." *)
| InstanceVerificationFailed
    (* "Instance verification failed." *)
| LimitExceededOtherResource.
    (* "LimitExceeded for a resource other than the target instance shape. ..." *)

Inductive Exn : Type :=
| ServiceErrorExn (e : ServiceError)
| RuntimeError (site : RuntimeErrorSite)
| TypeError      (* argument of type 'NoneType' is not iterable *)
| StopIteration  (* next() on an exhausted iterator *)
| ValueError     (* sleep length must be non-negative *)
| OverflowError. (* timestamp too large to convert to C _PyTime_t *)

(** Value of a Python expression that may raise. *)
Inductive PyResult (A : Type) : Type :=
| Ok (a : A)
| Raises (x : Exn).
Arguments Ok {A} a.
Arguments Raises {A} x.

(** ** Error classification *)

Inductive Classification : Type := RETRYABLE | QUOTA_EXCEEDED | FATAL.

Definition RETRY_STATUSES : list Z := [429; 500; 502; 503; 504]%Z.

Definition status_in (s : Z) (l : list Z) : bool := existsb (Z.eqb s) l.

(** [e.status in [429, 500, 502, 503, 504] or e.code == "TooManyRequests"
     or "Out of host capacity" in e.message], with [or] short-circuiting:
    the message is only inspected when the first two tests fail, and [in]
    raises [TypeError] on [None]. *)
Definition is_temporary (e : ServiceError) : PyResult bool :=
  if status_in (status e) RETRY_STATUSES then Ok true
  else if String.eqb (code e) "TooManyRequests" then Ok true
  else match message e with
       | Some m => Ok (PyStr.contains "Out of host capacity" m)
       | None => Raises TypeError
       end.

(** The [except ServiceError] clause of [_execute_api_call]: the temporary
    test comes first, then the [LimitExceeded] test. *)
Definition classify_wrapper (e : ServiceError) : PyResult Classification :=
  match is_temporary e with
  | Raises x => Raises x
  | Ok true => Ok RETRYABLE
  | Ok false =>
      if String.eqb (code e) "LimitExceeded" then Ok QUOTA_EXCEEDED
      else Ok FATAL
  end.

(** The [except ServiceError] clause of [launch_new_instance]: the
    [LimitExceeded] test comes first, then the temporary test. *)
Definition classify_launch (e : ServiceError) : PyResult Classification :=
  if String.eqb (code e) "LimitExceeded" then Ok QUOTA_EXCEEDED
  else match is_temporary e with
       | Raises x => Raises x
       | Ok true => Ok RETRYABLE
       | Ok false => Ok FATAL
       end.

(** ** Data model *)

(** [Config]: the fields [OciManager] reads. *)
Module Config.
Record t : Type := mk {
  free_ad_list : list string;
  display_name : string;
  wait_time_secs : Z;
  image_id : option string;
  compute_shape : string;
  is_second_micro_instance : bool;
  subnet_id : option string;
  os : string;
  os_version : string;
  assign_public_ip : bool;
  boot_volume_size : Z
}.
End Config.

(** [oci.core.models.Instance], as listed by the provider. *)
Module Instance.
Record t : Type := mk {
  id : string;
  display_name : string;
  shape : string;
  lifecycle_state : string;
  availability_domain : string
}.
End Instance.

(** [oci.core.models.Image]: the fields [find_image_id] reads. *)
Module Image.
Record t : Type := mk {
  display_name : string;
  id : string;
  operating_system : string;
  operating_system_version : string
}.
End Image.

Module CreateVnicDetails.
Record t : Type := mk {
  assign_public_ip : bool;
  assign_private_dns_record : bool;
  display_name : string;
  subnet_id : string
}.
End CreateVnicDetails.

Module LaunchInstanceShapeConfigDetails.
Record t : Type := mk {
  ocpus : Z;
  memory_in_gbs : Z
}.
End LaunchInstanceShapeConfigDetails.

Module InstanceSourceViaImageDetails.
Record t : Type := mk {
  source_type : string;
  image_id : string;
  boot_volume_size_in_gbs : Z
}.
End InstanceSourceViaImageDetails.

Module LaunchInstanceDetails.
Record t : Type := mk {
  compartment_id : string;
  display_name : string;
  shape : string;
  subnet_id : string;
  image_id : string;
  availability_domain : string;
  create_vnic_details : CreateVnicDetails.t;
  shape_config : LaunchInstanceShapeConfigDetails.t;
  source_details : InstanceSourceViaImageDetails.t;
  ssh_authorized_keys : string
}.

(** [launch_details.availability_domain = ad]: the only field assigned
    after construction. *)
Definition set_availability_domain (ad : string) (d : t) : t :=
  mk (compartment_id d) (display_name d) (shape d) (subnet_id d) (image_id d)
     ad (create_vnic_details d) (shape_config d) (source_details d)
     (ssh_authorized_keys d).
End LaunchInstanceDetails.

(** The manager after [__init__]: its configuration and the tenancy id. *)
Record OciManager : Type := mkOciManager {
  config : Config.t;
  tenancy_id : string
}.

(** ** The provider and the trace of a run *)

Inductive Response (A : Type) : Type :=
| Data (a : A)
| Error (e : ServiceError).
Arguments Data {A} a.
Arguments Error {A} e.

(** The API methods that go through [_execute_api_call]. *)
Inductive Method : Type :=
| list_availability_domains
| list_subnets
| list_images
| list_instances.

Inductive Event : Type :=
| Call (m : Method)                        (* a wrapped provider call *)
| Launch (d : LaunchInstanceDetails.t)     (* compute_client.launch_instance *)
| Sleep (secs : Z)                         (* time.sleep *)
| WriteImagesList (images : list Image.t)  (* json.dump to images_list.json *)
| GenerateSshKey.                          (* a new key pair written to disk *)

Record World : Type := mkWorld {
  availability_domains_q : list (Response (list string));  (* names *)
  subnets_q : list (Response (list string));               (* ids *)
  images_q : list (Response (list Image.t));
  instances_q : list (Response (list Instance.t));
  launch_q : list (Response unit);
  ssh_keys_file : option string;   (* text of the key file, if it exists *)
  generated_key : string;          (* base64 of the key paramiko would make *)
  trace : list Event
}.

Definition set_trace t (w : World) : World :=
  mkWorld (availability_domains_q w) (subnets_q w) (images_q w)
          (instances_q w) (launch_q w) (ssh_keys_file w) (generated_key w) t.

Definition log (ev : Event) (w : World) : World :=
  set_trace (trace w ++ [ev]) w.

Definition set_availability_domains_q q (w : World) : World :=
  mkWorld q (subnets_q w) (images_q w) (instances_q w) (launch_q w)
          (ssh_keys_file w) (generated_key w) (trace w).

Definition set_subnets_q q (w : World) : World :=
  mkWorld (availability_domains_q w) q (images_q w) (instances_q w)
          (launch_q w) (ssh_keys_file w) (generated_key w) (trace w).

Definition set_images_q q (w : World) : World :=
  mkWorld (availability_domains_q w) (subnets_q w) q (instances_q w)
          (launch_q w) (ssh_keys_file w) (generated_key w) (trace w).

Definition set_instances_q q (w : World) : World :=
  mkWorld (availability_domains_q w) (subnets_q w) (images_q w) q
          (launch_q w) (ssh_keys_file w) (generated_key w) (trace w).

Definition set_launch_q q (w : World) : World :=
  mkWorld (availability_domains_q w) (subnets_q w) (images_q w)
          (instances_q w) q (ssh_keys_file w) (generated_key w) (trace w).

Definition set_ssh_keys_file f (w : World) : World :=
  mkWorld (availability_domains_q w) (subnets_q w) (images_q w)
          (instances_q w) (launch_q w) f (generated_key w) (trace w).

(** How a wrapped method reaches its response queue. *)
Record Endpoint (A : Type) : Type := mkEndpoint {
  method : Method;
  pending : World -> list (Response A);
  set_pending : list (Response A) -> World -> World
}.
Arguments method {A} _.
Arguments pending {A} _ _.
Arguments set_pending {A} _ _ _.

Definition ep_list_availability_domains : Endpoint (list string) :=
  mkEndpoint _ list_availability_domains availability_domains_q
             set_availability_domains_q.
Definition ep_list_subnets : Endpoint (list string) :=
  mkEndpoint _ list_subnets subnets_q set_subnets_q.
Definition ep_list_images : Endpoint (list Image.t) :=
  mkEndpoint _ list_images images_q set_images_q.
Definition ep_list_instances : Endpoint (list Instance.t) :=
  mkEndpoint _ list_instances instances_q set_instances_q.

(** ** Computations: state passing with exceptions *)

Inductive Outcome (A : Type) : Type :=
| Return (a : A)
| Raise (x : Exn)
| Blocked.   (* waiting for a response the script does not hold *)
Arguments Return {A} a.
Arguments Raise {A} x.
Arguments Blocked {A}.

Definition M (A : Type) : Type := World -> Outcome A * World.

Definition ret {A} (a : A) : M A := fun w => (Return a, w).
Definition raise {A} (x : Exn) : M A := fun w => (Raise x, w).
Definition bind {A B} (m : M A) (k : A -> M B) : M B :=
  fun w =>
    match m w with
    | (Return a, w') => k a w'
    | (Raise x, w') => (Raise x, w')
    | (Blocked, w') => (Blocked, w')
    end.
(** [time.sleep] keeps the length in nanoseconds in a signed 64-bit
    integer: more seconds than these do not fit. *)
Definition SLEEP_MAX : Z := 9223372036.

(** [time.sleep(secs)] on an [int]: a negative length raises [ValueError]
    and one that does not fit raises [OverflowError], both at once.  (Just
    below that limit the operating system may refuse a length too; the
    statements that need a sleep to be made stay well clear of it, see
    [sleepable].) *)
Definition sleep (secs : Z) : M unit :=
  fun w =>
    if (secs <? 0)%Z then (Raise ValueError, w)
    else if (SLEEP_MAX <? secs)%Z then (Raise OverflowError, w)
    else (Return tt, log (Sleep secs) w).
Definition emit (ev : Event) : M unit := fun w => (Return tt, log ev w).

Declare Scope py_scope.
Delimit Scope py_scope with py.
Notation "x <- m ;; k" := (bind m (fun x => k))
  (at level 100, m at next level, right associativity) : py_scope.
Notation "m ;;; k" := (bind m (fun _ => k))
  (at level 100, right associativity) : py_scope.
Open Scope py_scope.

(** ** [OciManager._execute_api_call] *)

(** The [while True] loop of the wrapper over the method's response queue:
    data is returned, a temporary error sleeps [wait_time_secs] and calls
    again, any other error is re-raised.  The sleep is made in the [except]
    clause, so what it raises leaves the wrapper. *)
Fixpoint _execute_api_call_loop {A} (wait : Z) (ep : Endpoint A)
    (q : list (Response A)) (w : World) : Outcome A * World :=
  let w1 := log (Call (method ep)) w in
  match q with
  | [] => (Blocked, w1)
  | r :: q' =>
      let w2 := set_pending ep q' w1 in
      match r with
      | Data a => (Return a, w2)
      | Error e =>
          match classify_wrapper e with
          | Raises x => (Raise x, w2)
          | Ok RETRYABLE =>
              match sleep wait w2 with
              | (Return _, w3) => _execute_api_call_loop wait ep q' w3
              | (Raise x, w3) => (Raise x, w3)
              | (Blocked, w3) => (Blocked, w3)
              end
          | Ok QUOTA_EXCEEDED => (Raise (ServiceErrorExn e), w2)
          | Ok FATAL => (Raise (ServiceErrorExn e), w2)
          end
      end
  end.

Definition _execute_api_call {A} (self : OciManager) (ep : Endpoint A) : M A :=
  fun w =>
    _execute_api_call_loop (Config.wait_time_secs (config self)) ep (pending ep w) w.

(** ** Lookups *)

(** [find_availability_domains]: the names that end with one of the
    configured suffixes, in the provider's order. *)
Definition find_availability_domains (self : OciManager) : M (list string) :=
  all_ads <- _execute_api_call self ep_list_availability_domains ;;
  ret (filter (fun name =>
                 existsb (fun free_ad => PyStr.endswith name free_ad)
                         (Config.free_ad_list (config self)))
              all_ads).

Definition find_subnet_id (self : OciManager) : M string :=
  match Config.subnet_id (config self) with
  | Some (String c s) => ret (String c s)
  | _ =>
      subnets <- _execute_api_call self ep_list_subnets ;;
      match subnets with
      | [] => raise (RuntimeError NoSubnets)
      | first :: _ => ret first
      end
  end.

Definition find_image_id (self : OciManager) : M string :=
  match Config.image_id (config self) with
  | Some (String c s) => ret (String c s)
  | _ =>
      images <- _execute_api_call self ep_list_images ;;
      (emit (WriteImagesList images) ;;;
       match find (fun image =>
                     String.eqb (Image.operating_system image)
                                (Config.os (config self)) &&
                     String.eqb (Image.operating_system_version image)
                                (Config.os_version (config self)))
                  images with
       | Some image => ret (Image.id image)
       | None => raise (RuntimeError (NoImage (Config.os (config self))
                                              (Config.os_version (config self))))
       end)
  end.

(** [_get_ssh_public_key]: the text of the key file, written first from a
    freshly generated key when the file does not exist. *)
Definition _get_ssh_public_key (self : OciManager) : M string :=
  fun w =>
    match ssh_keys_file w with
    | Some text => (Return text, w)
    | None =>
        let text := "ssh-rsa " ++ generated_key w ++ " auto_generated_by_script" in
        (Return text, set_ssh_keys_file (Some text) (log GenerateSshKey w))
    end.

(** ** [OciManager.check_for_existing_instance] *)

Definition ACCEPTED_STATES : list string := ["RUNNING"; "PROVISIONING"; "STARTING"].

(** The list comprehension building [target_instances]. *)
Definition target_instances (cfg : Config.t) (instances : list Instance.t)
  : list Instance.t :=
  filter (fun inst =>
            String.eqb (Instance.shape inst) (Config.compute_shape cfg) &&
            PyStr.mem (Instance.lifecycle_state inst) ACCEPTED_STATES)
         instances.

(** The decisions after the list comprehension; [targets[0]] is
    [hd_error], [targets[-1]] is the element at index [len - 1]. *)
Definition select_existing (cfg : Config.t) (targets : list Instance.t)
  : option Instance.t :=
  if String.eqb (Config.compute_shape cfg) ARM_SHAPE
     && negb (Nat.eqb (List.length targets) 0)
  then hd_error targets
  else
    if String.eqb (Config.compute_shape cfg) E2_MICRO_SHAPE then
      if Config.is_second_micro_instance cfg && Nat.leb 2 (List.length targets)
      then nth_error targets (List.length targets - 1)
      else if negb (Config.is_second_micro_instance cfg) && Nat.leb 1 (List.length targets)
      then hd_error targets
      else None
    else None.

Definition check_for_existing_instance (self : OciManager) : M (option Instance.t) :=
  instances <- _execute_api_call self ep_list_instances ;;
  ret (select_existing (config self) (target_instances (config self) instances)).

(** ** [itertools.cycle] *)

(** The generator's state: the saved copy of the iterable and the part of
    the current pass not yet yielded. *)
Record Cycle : Type := mkCycle {
  saved : list string;
  upcoming : list string
}.

Definition itertools_cycle (iterable : list string) : Cycle :=
  mkCycle iterable iterable.

(** [next(cycler)]: the next element of the current pass, or the first of
    a new pass; an empty iterable is exhausted at once. *)
Definition next (c : Cycle) : PyResult (string * Cycle) :=
  match upcoming c with
  | x :: rest => Ok (x, mkCycle (saved c) rest)
  | [] =>
      match saved c with
      | x :: rest => Ok (x, mkCycle (saved c) rest)
      | [] => Raises StopIteration
      end
  end.

(** ** [OciManager.launch_new_instance] *)

(** [for _ in range(rounds)]: query, return a found instance, otherwise
    sleep 60 and go on; [None] when the rounds are used up. *)
Fixpoint poll (self : OciManager) (rounds : nat) : M (option Instance.t) :=
  match rounds with
  | O => ret None
  | S rounds' =>
      instance <- check_for_existing_instance self ;;
      match instance with
      | Some i => ret (Some i)
      | None => (sleep 60 ;;; poll self rounds')
      end
  end.

(** The [try] body after the zone assignment, given the provider's answer
    to [launch_instance]. *)
Definition try_launch (self : OciManager) (r : Response unit) : M Instance.t :=
  match r with
  | Error e => raise (ServiceErrorExn e)
  | Data _ =>
      found <- poll self 5 ;;
      match found with
      | Some i => ret i
      | None => raise (RuntimeError InstanceVerificationFailed)
      end
  end.

(** How one pass of the [while True] body ends. *)
Inductive Step : Type :=
| Continue
| Finish (instance : Instance.t).

(** The [except ServiceError as e] clause. *)
Definition except_ServiceError (self : OciManager) (e : ServiceError) : M Step :=
  match classify_launch e with
  | Ok QUOTA_EXCEEDED =>
      instance <- check_for_existing_instance self ;;
      match instance with
      | Some i => ret (Finish i)
      | None => raise (RuntimeError LimitExceededOtherResource)
      end
  | Ok RETRYABLE =>
      (sleep (Config.wait_time_secs (config self)) ;;; ret Continue)
  | Ok FATAL => raise (ServiceErrorExn e)
  | Raises x => raise x
  end.

(** [try: ... except ServiceError as e: ...]: only a [ServiceError] raised
    in the body is handled, whether it comes from [launch_instance] or from
    a listing made by the poll. *)
Definition attempt (self : OciManager) (r : Response unit) : M Step :=
  fun w =>
    match try_launch self r w with
    | (Return i, w') => (Return (Finish i), w')
    | (Raise (ServiceErrorExn e), w') => except_ServiceError self e w'
    | (Raise x, w') => (Raise x, w')
    | (Blocked, w') => (Blocked, w')
    end.

(** The [while True] loop over the responses to [launch_instance]. *)
Fixpoint launch_loop (self : OciManager) (q : list (Response unit))
    (ad_cycler : Cycle) (launch_details : LaunchInstanceDetails.t)
    (w : World) : Outcome Instance.t * World :=
  match next ad_cycler with
  | Raises x => (Raise x, w)
  | Ok (ad, ad_cycler') =>
      let launch_details' :=
        LaunchInstanceDetails.set_availability_domain ad launch_details in
      let w1 := log (Launch launch_details') w in
      match q with
      | [] => (Blocked, w1)
      | r :: q' =>
          match attempt self r (set_launch_q q' w1) with
          | (Return Continue, w2) =>
              launch_loop self q' ad_cycler' launch_details' w2
          | (Return (Finish i), w2) => (Return i, w2)
          | (Raise x, w2) => (Raise x, w2)
          | (Blocked, w2) => (Blocked, w2)
          end
      end
  end.

Definition shape_config_for (cfg : Config.t) : LaunchInstanceShapeConfigDetails.t :=
  if String.eqb (Config.compute_shape cfg) ARM_SHAPE
  then LaunchInstanceShapeConfigDetails.mk 4 24
  else LaunchInstanceShapeConfigDetails.mk 1 1.

Definition launch_new_instance (self : OciManager) : M Instance.t :=
  ads <- find_availability_domains self ;;
  match ads with
  | [] => raise (RuntimeError (NoAvailabilityDomains (Config.free_ad_list (config self))))
  | _ :: _ =>
      let ad_cycler := itertools_cycle ads in
      subnet_id <- find_subnet_id self ;;
      image_id <- find_image_id self ;;
      ssh_key <- _get_ssh_public_key self ;;
      let shape_config := shape_config_for (config self) in
      match next ad_cycler with
      | Raises x => raise x
      | Ok (first_ad, ad_cycler') =>
          let launch_details :=
            LaunchInstanceDetails.mk
              (tenancy_id self)
              (Config.display_name (config self))
              (Config.compute_shape (config self))
              subnet_id
              image_id
              first_ad
              (CreateVnicDetails.mk
                 (Config.assign_public_ip (config self))
                 true
                 (Config.display_name (config self))
                 subnet_id)
              shape_config
              (InstanceSourceViaImageDetails.mk
                 "image" image_id (Config.boot_volume_size (config self)))
              ssh_key in
          fun w => launch_loop self (launch_q w) ad_cycler' launch_details w
      end
  end.

(** ** Outcomes in the specification's vocabulary *)

Inductive FailureReason : Type :=
| QUOTA_EXCEEDED_OTHER_RESOURCE
| VERIFICATION_TIMEOUT
| FATAL_PROVIDER_ERROR (detail : ServiceError)
| NO_ZONES_AVAILABLE.

Inductive AcquisitionOutcome : Type :=
| SUCCESS (record : Instance.t)
| FAILED (reason : FailureReason).

(** What a finished run of [launch_new_instance] amounts to: a returned
    instance is a success, and each exception it lets out is the failure
    the specification names for it.  A run that is still waiting, or that
    ends in an exception outside that list, has no such outcome. *)
Definition acquisition_outcome (o : Outcome Instance.t) : option AcquisitionOutcome :=
  match o with
  | Return i => Some (SUCCESS i)
  | Raise (RuntimeError LimitExceededOtherResource) =>
      Some (FAILED QUOTA_EXCEEDED_OTHER_RESOURCE)
  | Raise (RuntimeError InstanceVerificationFailed) =>
      Some (FAILED VERIFICATION_TIMEOUT)
  | Raise (RuntimeError (NoAvailabilityDomains _)) =>
      Some (FAILED NO_ZONES_AVAILABLE)
  | Raise (ServiceErrorExn e) => Some (FAILED (FATAL_PROVIDER_ERROR e))
  | _ => None
  end.

(** ** Reference notions used in the statements *)

(** [needle] occurs in [hay] as a contiguous substring. *)
Definition substring_of (needle hay : string) : Prop :=
  exists pre post, hay = pre ++ needle ++ post.

(** The condition under which an error is to be retried: its status is one
    of 429, 500, 502, 503, 504, or its code is "TooManyRequests", or its
    message contains "Out of host capacity". *)
Definition retry_condition (e : ServiceError) : Prop :=
  In (status e) [429; 500; 502; 503; 504]%Z \/
  code e = "TooManyRequests" \/
  exists m, message e = Some m /\ substring_of "Out of host capacity" m.

(** The [k]-th value, counting from 0, of the cyclic rotation over
    [zones]. *)
Definition rotation (zones : list string) (k : nat) : string :=
  nth (k mod List.length zones) zones EmptyString.

(** The cycler after one more [next], and after [k] of them. *)
Definition step_cycle (c : Cycle) : Cycle :=
  match next c with
  | Ok (_, c') => c'
  | Raises _ => c
  end.

Fixpoint advance (k : nat) (c : Cycle) : Cycle :=
  match k with
  | O => c
  | S k' => step_cycle (advance k' c)
  end.

(** An instance the finder may report: the configured shape, in one of the
    three accepted lifecycle states. *)
Definition qualifies (cfg : Config.t) (i : Instance.t) : Prop :=
  Instance.shape i = Config.compute_shape cfg /\
  In (Instance.lifecycle_state i) ["RUNNING"; "PROVISIONING"; "STARTING"].

(** The sleeps of a trace, in order. *)
Definition sleeps (t : list Event) : list Z :=
  flat_map (fun ev => match ev with Sleep s => [s] | _ => [] end) t.

(** The zones of the launch submissions of a trace, in order. *)
Definition launch_zones (t : list Event) : list string :=
  flat_map (fun ev =>
              match ev with
              | Launch d => [LaunchInstanceDetails.availability_domain d]
              | _ => []
              end) t.

(** The wrapped provider calls of a trace, in order. *)
Definition calls (t : list Event) : list Method :=
  flat_map (fun ev => match ev with Call m => [m] | _ => [] end) t.

(** The events of the launch calls number [k], [k+1], ..., [k+n-1] of the
    rotation when each fails with a retryable error: the call, then the
    sleep of [wait] seconds. *)
Definition retried_attempts (wait : Z) (zones : list string)
    (d : LaunchInstanceDetails.t) (k n : nat) : list Event :=
  flat_map (fun i =>
              [Launch (LaunchInstanceDetails.set_availability_domain
                         (rotation zones i) d);
               Sleep wait])
           (seq k n).

(** One poll round that finds nothing: the listing, then the sleep. *)
Definition missed_round : list Event := [Call list_instances; Sleep 60].

(** ** Sample inputs *)

Module Sample.

Definition arm_config : Config.t :=
  Config.mk ["AD-1"; "AD-2"; "AD-3"] "free-arm" 60 (Some "ocid1.image.a")
            ARM_SHAPE false (Some "ocid1.subnet.a") "Canonical Ubuntu" "22.04"
            false 50.

Definition arm_second_config : Config.t :=
  Config.mk ["AD-1"; "AD-2"; "AD-3"] "free-arm" 60 (Some "ocid1.image.a")
            ARM_SHAPE true (Some "ocid1.subnet.a") "Canonical Ubuntu" "22.04"
            false 50.

Definition micro_config (second : bool) : Config.t :=
  Config.mk ["AD-1"; "AD-2"; "AD-3"] "free-micro" 60 (Some "ocid1.image.a")
            E2_MICRO_SHAPE second (Some "ocid1.subnet.a") "Canonical Ubuntu"
            "22.04" false 50.

(** A configuration whose wait interval is negative. *)
Definition negative_wait_config : Config.t :=
  Config.mk ["AD-1"; "AD-2"; "AD-3"] "free-arm" (-5) (Some "ocid1.image.a")
            ARM_SHAPE false (Some "ocid1.subnet.a") "Canonical Ubuntu" "22.04"
            false 50.

(** A configuration whose wait interval is too long for a sleep. *)
Definition long_wait_config : Config.t :=
  Config.mk ["AD-1"; "AD-2"; "AD-3"] "free-arm" 10000000000
            (Some "ocid1.image.a") ARM_SHAPE false (Some "ocid1.subnet.a")
            "Canonical Ubuntu" "22.04" false 50.

Definition manager (cfg : Config.t) : OciManager :=
  mkOciManager cfg "ocid1.tenancy.t".

Definition zones : list string := ["kWVD:AD-1"; "kWVD:AD-2"; "kWVD:AD-3"].

Definition inst (name shape state : string) : Instance.t :=
  Instance.mk ("ocid1.instance." ++ name) name shape state "kWVD:AD-1".

Definition X (shape state : string) : Instance.t := inst "x" shape state.
Definition Y (shape state : string) : Instance.t := inst "y" shape state.
Definition Z (shape state : string) : Instance.t := inst "z" shape state.

(** A provider error with the quota code and a retry status. *)
Definition quota_429 : ServiceError :=
  mkServiceError 429 "LimitExceeded" (Some "The limit has been reached.").

Definition quota_400 : ServiceError :=
  mkServiceError 400 "LimitExceeded" (Some "The limit has been reached.").

Definition out_of_capacity : ServiceError :=
  mkServiceError 500 "InternalError" (Some "Out of host capacity.").

Definition not_found : ServiceError :=
  mkServiceError 404 "NotAuthorizedOrNotFound"
                 (Some "Authorization failed or requested resource not found.").

(** A provider error whose response carried no message. *)
Definition no_message : ServiceError :=
  mkServiceError 400 "InvalidParameter" None.

(** The error [not_found] without its message. *)
Definition not_found_no_message : ServiceError :=
  mkServiceError 404 "NotAuthorizedOrNotFound" None.

(** A world in which only the given queues hold responses; the key file
    exists. *)
Definition world (ads : list (Response (list string)))
    (instances : list (Response (list Instance.t)))
    (launches : list (Response unit)) : World :=
  mkWorld ads [] [] instances launches (Some "ssh-rsa AAAA user") "BBBB" [].

Definition launch_details_in (ad : string) : LaunchInstanceDetails.t :=
  LaunchInstanceDetails.mk "ocid1.tenancy.t" "free-arm" ARM_SHAPE
    "ocid1.subnet.a" "ocid1.image.a" ad
    (CreateVnicDetails.mk false true "free-arm" "ocid1.subnet.a")
    (LaunchInstanceShapeConfigDetails.mk 4 24)
    (InstanceSourceViaImageDetails.mk "image" "ocid1.image.a" 50)
    "ssh-rsa AAAA user".

End Sample.

(** ** What a computation may end in *)

(** An outcome is settled under [P] when a returned value satisfies [P]
    and a [ServiceError] let out is one the temporary test rejects. *)
Definition settled {A} (P : A -> Prop) (o : Outcome A) : Prop :=
  match o with
  | Return a => P a
  | Raise (ServiceErrorExn e) => is_temporary e = Ok false
  | Raise _ => True
  | Blocked => True
  end.

Definition ensures {A} (m : M A) (P : A -> Prop) : Prop :=
  forall w, settled P (fst (m w)).

(** What a pass of the launch loop may hand over. *)
Definition step_qualifies (cfg : Config.t) (s : Step) : Prop :=
  match s with
  | Continue => True
  | Finish i => qualifies cfg i
  end.

(** A listing in which the finder finds nothing. *)
Definition finds_nothing (cfg : Config.t) (instances : list Instance.t) : Prop :=
  select_existing cfg (target_instances cfg instances) = None.

(** ** Further notions used in the statements *)

(** The values of [n] successive calls of [next], as far as they go. *)
Fixpoint take_next (n : nat) (c : Cycle) : list string :=
  match n with
  | O => []
  | S n' =>
      match next c with
      | Ok (x, c') => x :: take_next n' c'
      | Raises _ => []
      end
  end.

(** The lengths that [time.sleep] takes on every platform: not negative,
    and with milliseconds that fit 32 bits (some 49 days). *)
Definition SLEEP_SAFE : Z := 4294967.

Definition sleepable (secs : Z) : Prop := (0 <= secs <= SLEEP_SAFE)%Z.


(** An endpoint whose queue update is just that: it stores the queue and
    leaves the trace and the launch responses alone. *)
Definition lookup_endpoint {A} (ep : Endpoint A) : Prop :=
  (forall q w, pending ep (set_pending ep q w) = q) /\
  (forall q w, trace (set_pending ep q w) = trace w) /\
  (forall q w, launch_q (set_pending ep q w) = launch_q w).


(** An image of the wanted operating system and version. *)
Definition image_matches (cfg : Config.t) (image : Image.t) : Prop :=
  Image.operating_system image = Config.os cfg /\
  Image.operating_system_version image = Config.os_version cfg.

(** [w'] is [w] after some more events, all of them satisfying [ok]. *)
Definition extends_with (ok : Event -> Prop) (w w' : World) : Prop :=
  exists t, trace w' = (trace w ++ t)%list /\ Forall ok t.

(** A computation that only appends events satisfying [ok] to the trace. *)
Definition emits {A} (ok : Event -> Prop) (m : M A) : Prop :=
  forall w, extends_with ok w (snd (m w)).

(** A computation that takes no response to [launch_instance]. *)
Definition keeps_launch_q {A} (m : M A) : Prop :=
  forall w, launch_q (snd (m w)) = launch_q w.

(** An event other than a launch call. *)
Definition not_a_launch (ev : Event) : Prop :=
  match ev with
  | Launch _ => False
  | _ => True
  end.

(** The events of a listing of instances, of the poll and of the handling
    of a failed launch call. *)
Definition finder_event (self : OciManager) (ev : Event) : Prop :=
  ev = Call list_instances \/ ev = Sleep 60 \/
  ev = Sleep (Config.wait_time_secs (config self)).

(** A launch call whose details are the template [d] in some zone. *)
Definition launch_of (d : LaunchInstanceDetails.t) (ev : Event) : Prop :=
  exists ad, ev = Launch (LaunchInstanceDetails.set_availability_domain ad d).

(** An outcome whose returned value satisfies [P] and whose exception
    satisfies [E]. *)
Definition outcome_in {A} (P : A -> Prop) (E : Exn -> Prop) (o : Outcome A) : Prop :=
  match o with
  | Return a => P a
  | Raise x => E x
  | Blocked => True
  end.

Definition yields {A} (m : M A) (P : A -> Prop) (E : Exn -> Prop) : Prop :=
  forall w, outcome_in P E (fst (m w)).

(** What a wrapped call may raise: the [TypeError] of the message test,
    the [ValueError] or [OverflowError] of a sleep, which take a wait
    interval that is negative or too long, or a [ServiceError] that the
    temporary test rejects. *)
Definition wrapper_exn (self : OciManager) (x : Exn) : Prop :=
  x = TypeError \/
  (x = ValueError /\ (Config.wait_time_secs (config self) < 0)%Z) \/
  (x = OverflowError /\ (SLEEP_MAX < Config.wait_time_secs (config self))%Z) \/
  exists e, x = ServiceErrorExn e /\ is_temporary e = Ok false.

(** What the launch loop may raise. *)
Definition loop_exn (self : OciManager) (x : Exn) : Prop :=
  wrapper_exn self x \/
  x = RuntimeError InstanceVerificationFailed \/
  x = RuntimeError LimitExceededOtherResource.

(** What [launch_new_instance] may raise. *)
Definition run_exn (self : OciManager) (x : Exn) : Prop :=
  loop_exn self x \/
  x = RuntimeError (NoAvailabilityDomains (Config.free_ad_list (config self))) \/
  x = RuntimeError NoSubnets \/
  x = RuntimeError (NoImage (Config.os (config self))
                            (Config.os_version (config self))).

(** The failures of the preparation, before the launch loop. *)
Definition preparation_failure {A} (o : Outcome A) : Prop :=
  match o with
  | Raise (RuntimeError (NoAvailabilityDomains _)) => True
  | Raise (RuntimeError NoSubnets) => True
  | Raise (RuntimeError (NoImage _ _)) => True
  | _ => False
  end.

(** A launch request as the configuration wants it, whatever its zone,
    subnet, image and key. *)
Definition as_configured (self : OciManager) (d : LaunchInstanceDetails.t) : Prop :=
  LaunchInstanceDetails.compartment_id d = tenancy_id self /\
  LaunchInstanceDetails.display_name d = Config.display_name (config self) /\
  LaunchInstanceDetails.shape d = Config.compute_shape (config self) /\
  LaunchInstanceDetails.shape_config d = shape_config_for (config self) /\
  CreateVnicDetails.subnet_id (LaunchInstanceDetails.create_vnic_details d) =
    LaunchInstanceDetails.subnet_id d /\
  CreateVnicDetails.assign_public_ip (LaunchInstanceDetails.create_vnic_details d) =
    Config.assign_public_ip (config self) /\
  CreateVnicDetails.assign_private_dns_record
    (LaunchInstanceDetails.create_vnic_details d) = true /\
  CreateVnicDetails.display_name (LaunchInstanceDetails.create_vnic_details d) =
    Config.display_name (config self) /\
  InstanceSourceViaImageDetails.source_type
    (LaunchInstanceDetails.source_details d) = "image" /\
  InstanceSourceViaImageDetails.image_id (LaunchInstanceDetails.source_details d) =
    LaunchInstanceDetails.image_id d /\
  InstanceSourceViaImageDetails.boot_volume_size_in_gbs
    (LaunchInstanceDetails.source_details d) =
    Config.boot_volume_size (config self).

(** A pass of the launch loop that hands over an instance hands over one
    satisfying [P]. *)
Definition step_satisfies (P : Instance.t -> Prop) (s : Step) : Prop :=
  match s with
  | Continue => True
  | Finish i => P i
  end.

(** The events of the preparation: the listing of availability domains,
    the wrapper's sleeps, the listings of subnets and images (made only
    when the configuration names none), and the generation of a key. *)
Definition preparation_event (self : OciManager) (ev : Event) : Prop :=
  ev = Call list_availability_domains \/
  ev = Sleep (Config.wait_time_secs (config self)) \/
  (PyStr.truthy (Config.subnet_id (config self)) = false /\
   ev = Call list_subnets) \/
  (PyStr.truthy (Config.image_id (config self)) = false /\
   (ev = Call list_images \/ exists images, ev = WriteImagesList images)) \/
  ev = GenerateSshKey.


(** ** Strings *)

Lemma prefix_app (p s : string) :
  String.prefix p s = true <-> exists post, s = p ++ post.
Proof.
  revert p; induction s as [|b s IH]; intros [|a p]; simpl.
  - split; [intros _; exists EmptyString; reflexivity | reflexivity].
  - split; [discriminate | intros [post H]; discriminate].
  - split; [intros _; eexists; reflexivity | reflexivity].
  - destruct (Ascii.ascii_dec a b) as [->|Hab].
    + rewrite IH. split; intros [post H]; exists post.
      * now rewrite H.
      * now inversion H.
    + split; [discriminate | intros [post H]; inversion H; congruence].
Qed.

Lemma contains_substring (needle hay : string) :
  PyStr.contains needle hay = true <-> substring_of needle hay.
Proof.
  unfold substring_of.
  induction hay as [|c hay IH]; cbn [PyStr.contains];
    rewrite orb_true_iff, prefix_app.
  - split.
    + intros [[post H]|H]; [exists EmptyString, post; exact H | discriminate].
    + intros [pre [post H]]. left. destruct pre; simpl in H.
      * exists post; exact H.
      * discriminate.
  - rewrite IH. split.
    + intros [[post H]|[pre [post H]]].
      * exists EmptyString, post; exact H.
      * exists (String c pre), post; simpl; now rewrite H.
    + intros [pre [post H]]. destruct pre as [|c' pre]; simpl in H.
      * left; exists post; exact H.
      * right; exists pre, post; now inversion H.
Qed.

Lemma status_in_In (s : Z) (l : list Z) : status_in s l = true <-> In s l.
Proof.
  unfold status_in. rewrite existsb_exists. split.
  - intros [x [Hin Heq]]. apply Z.eqb_eq in Heq. now subst.
  - intros Hin. exists s. split; [exact Hin | apply Z.eqb_refl].
Qed.

(** ** The temporary-error test *)

Lemma is_temporary_true (e : ServiceError) :
  retry_condition e -> is_temporary e = Ok true.
Proof.
  unfold retry_condition, is_temporary, RETRY_STATUSES.
  intros [H|[H|[m [Hm Hsub]]]].
  - apply status_in_In in H. now rewrite H.
  - destruct (status_in _ _); [reflexivity|].
    apply String.eqb_eq in H. now rewrite H.
  - destruct (status_in _ _); [reflexivity|].
    destruct (String.eqb _ _); [reflexivity|].
    rewrite Hm. apply contains_substring in Hsub. now rewrite Hsub.
Qed.

Lemma is_temporary_false (e : ServiceError) (m : string) :
  message e = Some m -> ~ retry_condition e -> is_temporary e = Ok false.
Proof.
  unfold retry_condition, is_temporary, RETRY_STATUSES. intros Hm Hn.
  destruct (status_in _ _) eqn:Hs.
  - exfalso; apply Hn; left; now apply status_in_In.
  - destruct (String.eqb _ _) eqn:Hc.
    + exfalso; apply Hn; right; left; now apply String.eqb_eq.
    + rewrite Hm. destruct (PyStr.contains _ _) eqn:Hk; [|reflexivity].
      exfalso; apply Hn; right; right; exists m; split; [exact Hm|].
      now apply contains_substring.
Qed.

(** On an error whose message is a string the test never raises. *)
Lemma is_temporary_total_on_str (e : ServiceError) (m : string) :
  message e = Some m -> exists b, is_temporary e = Ok b.
Proof.
  unfold is_temporary. intros Hm.
  destruct (status_in _ _); [now exists true|].
  destruct (String.eqb _ _); [now exists true|].
  rewrite Hm. now eexists.
Qed.

(** In [launch_new_instance] the quota code is tested first, so status and
    message play no part. *)
Lemma classify_launch_quota (e : ServiceError) :
  code e = "LimitExceeded" -> classify_launch e = Ok QUOTA_EXCEEDED.
Proof.
  unfold classify_launch. intros H. now rewrite H.
Qed.

(** ** Classification *)

(** C1 (as the code has it): an error with the quota code "LimitExceeded"
    and status 429 is QUOTA_EXCEEDED in the [except] clause of
    [launch_new_instance], but RETRYABLE in [_execute_api_call], which
    tests the temporary statuses first; a listing that receives it sleeps
    and calls again instead of re-raising. *)
Theorem wrapper_retries_quota_code_with_retry_status :
  classify_launch Sample.quota_429 = Ok QUOTA_EXCEEDED /\
  classify_wrapper Sample.quota_429 = Ok RETRYABLE /\
  let run := check_for_existing_instance (Sample.manager Sample.arm_config)
               (Sample.world [] [Error Sample.quota_429; Data []] []) in
  fst run = Return None /\
  trace (snd run) = [Call list_instances; Sleep 60; Call list_instances].
Proof.
  repeat split; reflexivity.
Qed.

(** C9 (as the code has it): on an error with no message, whose status
    and code are not among the temporary ones, both classifications raise
    [TypeError] instead of answering FATAL, and the launch loop ends in
    that [TypeError]. *)
Theorem classification_raises_on_missing_message :
  classify_launch Sample.no_message = Raises TypeError /\
  classify_wrapper Sample.no_message = Raises TypeError /\
  fst (launch_loop (Sample.manager Sample.arm_config)
         [Error Sample.no_message]
         (itertools_cycle Sample.zones)
         (Sample.launch_details_in "kWVD:AD-1")
         (Sample.world [] [] [Error Sample.no_message]))
  = Raise TypeError.
Proof.
  repeat split; reflexivity.
Qed.

(** When the launch call fails with a FATAL error the loop ends at once
    with that error. *)
Lemma launch_loop_fatal self e q cyc ad cyc' d w :
  next cyc = Ok (ad, cyc') ->
  classify_launch e = Ok FATAL ->
  launch_loop self (Error e :: q) cyc d w =
  (Raise (ServiceErrorExn e),
   set_launch_q q (log (Launch (LaunchInstanceDetails.set_availability_domain ad d)) w)).
Proof.
  intros Hn Hc. cbn [launch_loop]. rewrite Hn.
  unfold attempt, try_launch, raise, except_ServiceError. now rewrite Hc.
Qed.

(** C5 (as the code has it): an error with status 404, the code
    "NotAuthorizedOrNotFound" and no message has not the quota code and
    meets none of the three retry conditions, yet it is not classified
    FATAL: both [except] clauses raise [TypeError] on its missing message.
    A launch call failing with it ends [launch_new_instance] in that
    [TypeError], which is no FAILED(FATAL_PROVIDER_ERROR), and a listing
    failing with it ends the finder the same way; with a message string
    the same error is FATAL and ends the run in
    FAILED(FATAL_PROVIDER_ERROR) carrying it. *)
Theorem other_error_without_message_is_not_fatal :
  let e := Sample.not_found_no_message in
  let self := Sample.manager Sample.arm_config in
  let run := launch_new_instance self
               (Sample.world [Data Sample.zones] [] [Error e]) in
  code e <> "LimitExceeded" /\
  ~ retry_condition e /\
  classify_launch e = Raises TypeError /\
  classify_wrapper e = Raises TypeError /\
  fst run = Raise TypeError /\
  acquisition_outcome (fst run) <> Some (FAILED (FATAL_PROVIDER_ERROR e)) /\
  fst (check_for_existing_instance self (Sample.world [] [Error e] []))
    = Raise TypeError /\
  acquisition_outcome
    (fst (launch_new_instance self
            (Sample.world [Data Sample.zones] [] [Error Sample.not_found])))
    = Some (FAILED (FATAL_PROVIDER_ERROR Sample.not_found)).
Proof.
  cbv zeta. split; [discriminate|]. split.
  { unfold retry_condition. cbn.
    intros [H|[H|[m [H _]]]]; [|discriminate H|discriminate H].
    repeat (destruct H as [H|H]; [discriminate H|]). exact H. }
  repeat split; try reflexivity. vm_compute. discriminate.
Qed.

(** ** Rotation over the availability domains *)

Lemma skipn_nth_cons (l : list string) (j : nat) :
  j < List.length l -> skipn j l = nth j l EmptyString :: skipn (S j) l.
Proof.
  revert j; induction l as [|x l IH]; intros j Hj; simpl in Hj.
  - lia.
  - destruct j as [|j]; [reflexivity|].
    cbn [skipn nth]. apply IH. lia.
Qed.

(** After [k] calls the cycler holds the list and what is left of the
    current pass. *)
Lemma advance_shape (zones : list string) (k : nat) :
  zones <> [] ->
  exists j, j <= List.length zones /\
            advance k (itertools_cycle zones) = mkCycle zones (skipn j zones) /\
            j mod List.length zones = k mod List.length zones.
Proof.
  intros Hne. induction k as [|k [j [Hj [Hadv Hmod]]]].
  - exists 0. split; [lia|]. split; [reflexivity|].
    rewrite Nat.Div0.mod_0_l. reflexivity.
  - cbn [advance]. rewrite Hadv. unfold step_cycle, next; cbn [upcoming saved].
    destruct (Nat.eq_dec j (List.length zones)) as [->|Hlt].
    + rewrite skipn_all. destruct zones as [|x rest]; [contradiction|].
      cbn [saved]. exists 1. split; [simpl; lia|]. split; [reflexivity|].
      rewrite Nat.Div0.mod_same in Hmod.
      replace (S k) with (k + 1) by lia.
      rewrite Nat.Div0.add_mod, <- Hmod, Nat.add_0_l, Nat.Div0.mod_mod.
      reflexivity.
    + rewrite skipn_nth_cons by lia. exists (S j).
      split; [lia|]. split; [reflexivity|].
      replace (S j) with (j + 1) by lia. replace (S k) with (k + 1) by lia.
      rewrite Nat.Div0.add_mod, Hmod, <- Nat.Div0.add_mod. reflexivity.
Qed.

(** [next] on a cycler over a non-empty list yields the rotation's values
    in order: the call number [k] (from 0) yields [rotation zones k]. *)
Lemma next_advance (zones : list string) (k : nat) :
  zones <> [] ->
  next (advance k (itertools_cycle zones)) =
  Ok (rotation zones k, advance (S k) (itertools_cycle zones)).
Proof.
  intros Hne. destruct (advance_shape zones k Hne) as [j [Hj [Hadv Hmod]]].
  cbn [advance]. unfold step_cycle. rewrite Hadv.
  unfold next, rotation; cbn [upcoming saved].
  destruct (Nat.eq_dec j (List.length zones)) as [->|Hlt].
  - rewrite skipn_all. destruct zones as [|x rest]; [contradiction|].
    rewrite <- Hmod, Nat.Div0.mod_same. reflexivity.
  - rewrite skipn_nth_cons by lia.
    rewrite <- Hmod, Nat.mod_small by lia. reflexivity.
Qed.

Lemma next_raises_only_StopIteration (c : Cycle) (x : Exn) :
  next c = Raises x -> x = StopIteration.
Proof.
  unfold next. destruct (upcoming c); [destruct (saved c)|]; congruence.
Qed.

(** ** Retryable launch failures *)

Lemma launch_loop_nil self cyc ad cyc' d w :
  next cyc = Ok (ad, cyc') ->
  launch_loop self [] cyc d w =
  (Blocked, log (Launch (LaunchInstanceDetails.set_availability_domain ad d)) w).
Proof.
  intros Hn. cbn [launch_loop]. now rewrite Hn.
Qed.

Lemma sleep_accepted (secs : Z) (w : World) :
  sleepable secs -> sleep secs w = (Return tt, log (Sleep secs) w).
Proof.
  intros [H1 H2]. unfold sleep.
  destruct (Z.ltb_spec secs 0); [lia|].
  destruct (Z.ltb_spec SLEEP_MAX secs);
    [unfold SLEEP_SAFE, SLEEP_MAX in *; lia | reflexivity].
Qed.



Lemma sleep_cases (secs : Z) (w : World) :
  (exists x, sleep secs w = (Raise x, w) /\
             (x = ValueError \/ x = OverflowError)) \/
  sleep secs w = (Return tt, log (Sleep secs) w).
Proof.
  unfold sleep. destruct (secs <? 0)%Z.
  - left. exists ValueError. split; [reflexivity | now left].
  - destruct (SLEEP_MAX <? secs)%Z.
    + left. exists OverflowError. split; [reflexivity | now right].
    + now right.
Qed.

Lemma launch_loop_retry self e q cyc ad cyc' d w :
  sleepable (Config.wait_time_secs (config self)) ->
  next cyc = Ok (ad, cyc') ->
  classify_launch e = Ok RETRYABLE ->
  launch_loop self (Error e :: q) cyc d w =
  launch_loop self q cyc' (LaunchInstanceDetails.set_availability_domain ad d)
    (log (Sleep (Config.wait_time_secs (config self)))
       (set_launch_q q
          (log (Launch (LaunchInstanceDetails.set_availability_domain ad d)) w))).
Proof.
  intros Hw Hn Hc. cbn [launch_loop]. rewrite Hn.
  unfold attempt, try_launch, raise, except_ServiceError. rewrite Hc.
  unfold bind. rewrite (sleep_accepted _ _ Hw). reflexivity.
Qed.

(** A prefix of retryable failures is worked off one launch call and one
    sleep at a time, each call in the next zone of the rotation; the loop
    then goes on with the rest of the responses, the listings untouched. *)
Lemma launch_loop_retries self zones errs :
  sleepable (Config.wait_time_secs (config self)) ->
  zones <> [] ->
  Forall (fun e => classify_launch e = Ok RETRYABLE) errs ->
  forall k d w rest,
  exists d' w',
    launch_loop self (map Error errs ++ rest)
                (advance k (itertools_cycle zones)) d w =
    launch_loop self rest
                (advance (k + List.length errs) (itertools_cycle zones)) d' w' /\
    (forall ad, LaunchInstanceDetails.set_availability_domain ad d' =
                LaunchInstanceDetails.set_availability_domain ad d) /\
    trace w' = (trace w ++
                retried_attempts (Config.wait_time_secs (config self))
                                 zones d k (List.length errs))%list /\
    instances_q w' = instances_q w.
Proof.
  intros Hw Hne Hall. induction Hall as [|e errs He Hall IH]; intros k d w rest.
  - exists d, w. cbn. rewrite Nat.add_0_r, app_nil_r. repeat split.
  - cbn [map app List.length].
    rewrite (launch_loop_retry self e _ _ _ _ d w Hw (next_advance zones k Hne) He).
    destruct (IH (S k)
                (LaunchInstanceDetails.set_availability_domain (rotation zones k) d)
                (log (Sleep (Config.wait_time_secs (config self)))
                   (set_launch_q (map Error errs ++ rest)
                      (log (Launch (LaunchInstanceDetails.set_availability_domain
                                      (rotation zones k) d)) w)))
                rest) as [d' [w' [Hrun [Hd [Ht Hq]]]]].
    exists d', w'. replace (k + S (List.length errs)) with (S k + List.length errs) by lia.
    split; [exact Hrun|]. split; [intros ad; now rewrite Hd|].
    split; [|exact Hq].
    rewrite Ht. cbn. rewrite <- !app_assoc. reflexivity.
Qed.

(** ** What the manager's computations may end in *)

Lemma ensures_ret {A} (P : A -> Prop) (a : A) : P a -> ensures (ret a) P.
Proof. intros H w. exact H. Qed.

Lemma ensures_raise_other {A} (P : A -> Prop) (x : Exn) :
  (forall e, x <> ServiceErrorExn e) -> ensures (@raise A x) P.
Proof.
  intros H w. cbn. destruct x; try exact I. now destruct (H e).
Qed.

Lemma ensures_raise_settled {A} (P : A -> Prop) (e : ServiceError) :
  is_temporary e = Ok false -> ensures (@raise A (ServiceErrorExn e)) P.
Proof. intros H w. exact H. Qed.

Lemma ensures_bind {A B} (m : M A) (k : A -> M B) (P : A -> Prop) (Q : B -> Prop) :
  ensures m P -> (forall a, P a -> ensures (k a) Q) -> ensures (bind m k) Q.
Proof.
  intros Hm Hk w. unfold bind. specialize (Hm w).
  destruct (m w) as [[a|x|] w']; cbn in *.
  - exact (Hk a Hm w').
  - exact Hm.
  - exact I.
Qed.

Lemma ensures_weaken {A} (m : M A) (P Q : A -> Prop) :
  ensures m P -> (forall a, P a -> Q a) -> ensures m Q.
Proof.
  intros Hm HPQ w. specialize (Hm w).
  destruct (fst (m w)) as [a|x|]; cbn in *; auto.
Qed.

Lemma is_temporary_raises_only_TypeError (e : ServiceError) (x : Exn) :
  is_temporary e = Raises x -> x = TypeError.
Proof.
  unfold is_temporary.
  destruct (status_in _ _); [discriminate|].
  destruct (String.eqb _ _); [discriminate|].
  destruct (message e); congruence.
Qed.

(** The wrapper lets out only errors the temporary test rejects. *)
Lemma execute_api_call_loop_settled {A} (wait : Z) (ep : Endpoint A)
    (q : list (Response A)) (w : World) :
  settled (fun _ => True) (fst (_execute_api_call_loop wait ep q w)).
Proof.
  revert w; induction q as [|r q IH]; intros w; cbn [_execute_api_call_loop].
  - exact I.
  - destruct r as [a|e]; [exact I|].
    unfold classify_wrapper.
    destruct (is_temporary e) as [[|]|x] eqn:Ht.
    + destruct (sleep_cases wait (set_pending ep q (log (Call (method ep)) w)))
        as [[x [E [-> | ->]]]|E]; rewrite E; [exact I | exact I | apply IH].
    + destruct (String.eqb _ _); exact Ht.
    + apply is_temporary_raises_only_TypeError in Ht. subst x. exact I.
Qed.

Lemma ensures_sleep (secs : Z) : ensures (sleep secs) (fun _ => True).
Proof.
  intros w. destruct (sleep_cases secs w) as [[x [E [-> | ->]]]|E];
    rewrite E; exact I.
Qed.

Lemma ensures_execute_api_call {A} self (ep : Endpoint A) :
  ensures (_execute_api_call self ep) (fun _ => True).
Proof. intros w. apply execute_api_call_loop_settled. Qed.

(** ** The finder reports only qualifying instances *)

Lemma mem_In (x : string) (l : list string) : PyStr.mem x l = true -> In x l.
Proof.
  unfold PyStr.mem. rewrite existsb_exists.
  intros [y [Hin Heq]]. apply String.eqb_eq in Heq. now subst.
Qed.

Lemma select_existing_In cfg targets i :
  select_existing cfg targets = Some i -> In i targets.
Proof.
  unfold select_existing. intros H.
  repeat match type of H with
         | (if ?c then _ else _) = _ => destruct c
         end;
    try discriminate;
    first [ now apply nth_error_In in H
          | destruct targets; [discriminate|]; inversion H; now left ].
Qed.

Lemma target_instances_qualify cfg instances i :
  In i (target_instances cfg instances) -> In i instances /\ qualifies cfg i.
Proof.
  unfold target_instances. rewrite filter_In, andb_true_iff.
  intros [Hin [Hs Hm]]. split; [exact Hin|]. split.
  - now apply String.eqb_eq.
  - exact (mem_In _ _ Hm).
Qed.

Lemma ensures_check_for_existing_instance self :
  ensures (check_for_existing_instance self)
          (fun r => forall i, r = Some i -> qualifies (config self) i).
Proof.
  unfold check_for_existing_instance.
  eapply ensures_bind; [apply ensures_execute_api_call|].
  intros instances _. apply ensures_ret. intros i Hi.
  apply select_existing_In in Hi. now apply target_instances_qualify in Hi.
Qed.

Lemma ensures_poll self rounds :
  ensures (poll self rounds)
          (fun r => forall i, r = Some i -> qualifies (config self) i).
Proof.
  induction rounds as [|rounds IH]; cbn [poll].
  - apply ensures_ret. discriminate.
  - eapply ensures_bind; [apply ensures_check_for_existing_instance|].
    intros [i|] Hi.
    + apply ensures_ret. exact Hi.
    + eapply ensures_bind with (P := fun _ => True).
      * apply ensures_sleep.
      * intros _ _. exact IH.
Qed.

Lemma ensures_except_ServiceError self e :
  ensures (except_ServiceError self e) (step_qualifies (config self)).
Proof.
  unfold except_ServiceError, classify_launch.
  destruct (String.eqb (code e) "LimitExceeded").
  - eapply ensures_bind; [apply ensures_check_for_existing_instance|].
    intros [i|] Hi.
    + apply ensures_ret. now apply Hi.
    + apply ensures_raise_other. discriminate.
  - destruct (is_temporary e) as [[|]|x] eqn:Ht.
    + eapply ensures_bind with (P := fun _ => True).
      * apply ensures_sleep.
      * intros _ _. now apply ensures_ret.
    + now apply ensures_raise_settled.
    + apply is_temporary_raises_only_TypeError in Ht. subst x.
      apply ensures_raise_other. discriminate.
Qed.

Lemma ensures_attempt self r :
  ensures (attempt self r) (step_qualifies (config self)).
Proof.
  intros w. unfold attempt, try_launch.
  destruct r as [u|e].
  - pose proof (ensures_poll self 5 w) as Hp. unfold bind.
    destruct (poll self 5 w) as [[[i|]|x|] w']; cbn in Hp |- *.
    + now apply Hp.
    + exact I.
    + destruct x; try exact I. apply ensures_except_ServiceError.
    + exact I.
  - cbn. apply ensures_except_ServiceError.
Qed.

Lemma launch_loop_settled self q :
  forall cyc d w,
    settled (qualifies (config self)) (fst (launch_loop self q cyc d w)).
Proof.
  induction q as [|r q IH]; intros cyc d w; cbn [launch_loop];
    destruct (next cyc) as [[ad cyc']|x] eqn:Hn.
  - exact I.
  - apply next_raises_only_StopIteration in Hn. subst x. exact I.
  - pose proof (ensures_attempt self r
        (set_launch_q q
           (log (Launch (LaunchInstanceDetails.set_availability_domain ad d)) w)))
      as Ha.
    destruct (attempt self r _) as [[[|i]|x|] w2]; cbn in Ha |- *.
    + apply IH.
    + exact Ha.
    + exact Ha.
    + exact I.
  - apply next_raises_only_StopIteration in Hn. subst x. exact I.
Qed.

Lemma ensures_launch_new_instance self :
  ensures (launch_new_instance self) (qualifies (config self)).
Proof.
  unfold launch_new_instance, find_availability_domains.
  eapply ensures_bind with (P := fun _ => True).
  { eapply ensures_bind; [apply ensures_execute_api_call|].
    intros; now apply ensures_ret. }
  intros [|ad ads] _.
  { apply ensures_raise_other. discriminate. }
  eapply ensures_bind with (P := fun _ => True).
  { unfold find_subnet_id.
    destruct (Config.subnet_id (config self)) as [[|c s]|];
      try (now apply ensures_ret);
      (eapply ensures_bind; [apply ensures_execute_api_call|]);
      intros [|first rest] _;
      first [now apply ensures_ret | apply ensures_raise_other; discriminate]. }
  intros subnet_id _.
  eapply ensures_bind with (P := fun _ => True).
  { unfold find_image_id.
    destruct (Config.image_id (config self)) as [[|c s]|];
      try (now apply ensures_ret);
      (eapply ensures_bind; [apply ensures_execute_api_call|]);
      intros images _;
      (eapply ensures_bind with (P := fun _ => True); [intros w; exact I|]);
      intros _ _; destruct (find _ images);
      first [now apply ensures_ret | apply ensures_raise_other; discriminate]. }
  intros image_id _.
  eapply ensures_bind with (P := fun _ => True).
  { intros w. unfold _get_ssh_public_key. now destruct (ssh_keys_file w). }
  intros ssh_key _.
  destruct (next (itertools_cycle (ad :: ads))) as [[first_ad cyc']|x] eqn:Hn.
  - intros w. apply launch_loop_settled.
  - apply next_raises_only_StopIteration in Hn. subst x.
    apply ensures_raise_other. discriminate.
Qed.

Lemma settled_not_retryable (e : ServiceError) :
  is_temporary e = Ok false -> classify_launch e <> Ok RETRYABLE.
Proof.
  unfold classify_launch. intros Ht.
  destruct (String.eqb _ _); [discriminate|]. rewrite Ht. discriminate.
Qed.

(** C6 (amended): with a wait interval that a sleep takes (not negative,
    and not longer than it takes on every platform), a launch loop fed any
    number of RETRYABLE
    failures, from any point of the rotation, has sent one launch call per
    failure, slept the configured wait after each, sent one more launch
    call and is waiting for its answer: it has reached no outcome.  And,
    whatever the wait interval, a [ServiceError] that ends the loop, or
    [launch_new_instance], is never a RETRYABLE one. *)
Theorem retryable_errors_never_end_the_run self zones errs k d w :
  zones <> [] ->
  Forall (fun e => classify_launch e = Ok RETRYABLE) errs ->
  let run := launch_loop self (map Error errs)
               (advance k (itertools_cycle zones)) d w in
  (sleepable (Config.wait_time_secs (config self)) ->
   fst run = Blocked /\
   acquisition_outcome (fst run) = None /\
   trace (snd run) =
     (trace w ++
      retried_attempts (Config.wait_time_secs (config self)) zones d k
                       (List.length errs) ++
      [Launch (LaunchInstanceDetails.set_availability_domain
                 (rotation zones (k + List.length errs)) d)])%list) /\
  (forall q cyc d0 w0 e,
     fst (launch_loop self q cyc d0 w0) = Raise (ServiceErrorExn e) ->
     classify_launch e <> Ok RETRYABLE) /\
  (forall w0 e,
     fst (launch_new_instance self w0) = Raise (ServiceErrorExn e) ->
     classify_launch e <> Ok RETRYABLE).
Proof.
  intros Hne Hall run. split; [|split].
  - intros Hw. subst run.
    destruct (launch_loop_retries self zones errs Hw Hne Hall k d w [])
      as [d' [w' [Hrun [Hd [Ht _]]]]].
    rewrite app_nil_r in Hrun. rewrite Hrun.
    rewrite (launch_loop_nil self _ _ _ d' w' (next_advance zones _ Hne)).
    cbn [fst snd acquisition_outcome]. repeat split.
    unfold log, set_trace; cbn [trace]. rewrite Ht, Hd, <- app_assoc.
    reflexivity.
  - intros q cyc d0 w0 e He. apply settled_not_retryable.
    pose proof (launch_loop_settled self q cyc d0 w0) as Hs.
    rewrite He in Hs. exact Hs.
  - intros w0 e He. apply settled_not_retryable.
    pose proof (ensures_launch_new_instance self w0) as Hs.
    rewrite He in Hs. exact Hs.
Qed.

Lemma retryable_errors_never_end_the_run_witness :
  Sample.zones <> [] /\
  Forall (fun e => classify_launch e = Ok RETRYABLE)
         [Sample.out_of_capacity; Sample.out_of_capacity] /\
  sleepable (Config.wait_time_secs (config (Sample.manager Sample.arm_config))) /\
  fst (launch_loop (Sample.manager Sample.arm_config)
         [Error Sample.out_of_capacity; Error Sample.out_of_capacity]
         (advance 1 (itertools_cycle Sample.zones))
         (Sample.launch_details_in "kWVD:AD-1")
         (Sample.world [] [] [])) = Blocked.
Proof.
  assert (H1 : Sample.zones <> []) by discriminate.
  assert (H2 : Forall (fun e => classify_launch e = Ok RETRYABLE)
                      [Sample.out_of_capacity; Sample.out_of_capacity])
    by (repeat constructor).
  assert (H3 : sleepable (Config.wait_time_secs
                            (config (Sample.manager Sample.arm_config))))
    by (unfold sleepable, SLEEP_SAFE; cbn; lia).
  split; [exact H1|]. split; [exact H2|]. split; [exact H3|].
  exact (proj1 (proj1 (retryable_errors_never_end_the_run
                         (Sample.manager Sample.arm_config) Sample.zones _ 1
                         (Sample.launch_details_in "kWVD:AD-1")
                         (Sample.world [] [] []) H1 H2) H3)).
Defined.

(** C6 (as stated, refuted): with a wait interval of -5 the launch call
    fails once with a RETRYABLE error; the sleep raises [ValueError], which
    ends the run at once: there is no sleep, no second launch call, and the
    accepting response that was to follow is never asked for.  With a wait
    interval of 10000000000 the run ends the same way in the sleep's
    [OverflowError]. *)
Lemma negative_wait_ends_the_run :
  let responses := Sample.world [Data Sample.zones]
                     [Data [Sample.X ARM_SHAPE "RUNNING"]]
                     [Error Sample.out_of_capacity; Data tt] in
  let run := launch_new_instance
               (Sample.manager Sample.negative_wait_config) responses in
  let long_run := launch_new_instance
                    (Sample.manager Sample.long_wait_config) responses in
  classify_launch Sample.out_of_capacity = Ok RETRYABLE /\
  fst run = Raise ValueError /\
  fst run <> Blocked /\
  launch_zones (trace (snd run)) = ["kWVD:AD-2"] /\
  sleeps (trace (snd run)) = [] /\
  launch_q (snd run) = [Data tt] /\
  fst long_run = Raise OverflowError /\
  launch_zones (trace (snd long_run)) = ["kWVD:AD-2"] /\
  sleeps (trace (snd long_run)) = [].
Proof.
  cbv zeta. repeat split; try reflexivity. vm_compute. discriminate.
Qed.

(** ** The finder's answers *)

(** C10: an instance handed over by the finder, be it in the check made
    before the run, in the confirmation poll, in the step taken on a quota
    error or as the result of [launch_new_instance], has the configured
    shape and is RUNNING, PROVISIONING or STARTING, whatever the
    configuration; so it is not STOPPED, STOPPING, TERMINATING or
    TERMINATED. *)
Theorem finder_reports_only_accepted_states self w i w' :
  check_for_existing_instance self w = (Return (Some i), w') \/
  (exists rounds, poll self rounds w = (Return (Some i), w')) \/
  (exists e, except_ServiceError self e w = (Return (Finish i), w')) \/
  launch_new_instance self w = (Return i, w') ->
  Instance.shape i = Config.compute_shape (config self) /\
  In (Instance.lifecycle_state i) ["RUNNING"; "PROVISIONING"; "STARTING"] /\
  ~ In (Instance.lifecycle_state i)
       ["STOPPED"; "STOPPING"; "TERMINATING"; "TERMINATED"].
Proof.
  intros H.
  assert (Hq : qualifies (config self) i).
  { destruct H as [H|[[rounds H]|[[e H]|H]]].
    - pose proof (ensures_check_for_existing_instance self w) as Hs.
      rewrite H in Hs. now apply Hs.
    - pose proof (ensures_poll self rounds w) as Hs.
      rewrite H in Hs. now apply Hs.
    - pose proof (ensures_except_ServiceError self e w) as Hs.
      rewrite H in Hs. exact Hs.
    - pose proof (ensures_launch_new_instance self w) as Hs.
      rewrite H in Hs. exact Hs. }
  destruct Hq as [Hshape Hstate]. split; [exact Hshape|]. split; [exact Hstate|].
  cbn in Hstate |- *.
  destruct Hstate as [<-|[<-|[<-|[]]]]; intros Hbad;
    repeat (destruct Hbad as [Hbad|Hbad]; [discriminate|]); exact Hbad.
Qed.

Lemma finder_reports_only_accepted_states_witness :
  let w := Sample.world [] [Data [Sample.X ARM_SHAPE "STOPPED";
                                  Sample.Y ARM_SHAPE "PROVISIONING"]] [] in
  let w' := snd (check_for_existing_instance
                   (Sample.manager Sample.arm_config) w) in
  check_for_existing_instance (Sample.manager Sample.arm_config) w =
    (Return (Some (Sample.Y ARM_SHAPE "PROVISIONING")), w') /\
  Instance.shape (Sample.Y ARM_SHAPE "PROVISIONING") = ARM_SHAPE /\
  In "PROVISIONING" ["RUNNING"; "PROVISIONING"; "STARTING"].
Proof.
  intros w w'.
  assert (H : check_for_existing_instance (Sample.manager Sample.arm_config) w =
              (Return (Some (Sample.Y ARM_SHAPE "PROVISIONING")), w'))
    by reflexivity.
  split; [exact H|].
  destruct (finder_reports_only_accepted_states
              (Sample.manager Sample.arm_config) w
              (Sample.Y ARM_SHAPE "PROVISIONING") w' (or_introl H))
    as [Hs [Hst _]].
  split; [exact Hs | exact Hst].
Defined.

(** A listing that the provider answers at once costs one call. *)
Lemma check_for_existing_instance_answered self w instances iq :
  instances_q w = Data instances :: iq ->
  check_for_existing_instance self w =
  (Return (select_existing (config self) (target_instances (config self) instances)),
   set_instances_q iq (log (Call list_instances) w)).
Proof.
  intros Hq. unfold check_for_existing_instance, bind, _execute_api_call.
  cbn [pending ep_list_instances]. rewrite Hq. reflexivity.
Qed.

(** ** A launch call that fails with the quota code *)

(** C3: when a launch call fails with the code "LimitExceeded" (whatever
    its status and message) and the provider answers the listing, the
    finder is queried once, at once (no sleep), and no further launch call
    is made: a qualifying instance is returned as the result; with none the
    run ends in the [RuntimeError] for a limit on another resource, that
    is FAILED(QUOTA_EXCEEDED_OTHER_RESOURCE). *)
Theorem quota_error_checks_existing_once self e q cyc ad cyc' d w instances iq :
  next cyc = Ok (ad, cyc') ->
  code e = "LimitExceeded" ->
  instances_q w = Data instances :: iq ->
  let run := launch_loop self (Error e :: q) cyc d w in
  let found := select_existing (config self)
                 (target_instances (config self) instances) in
  fst run = match found with
            | Some i => Return i
            | None => Raise (RuntimeError LimitExceededOtherResource)
            end /\
  acquisition_outcome (fst run) =
    Some (match found with
          | Some i => SUCCESS i
          | None => FAILED QUOTA_EXCEEDED_OTHER_RESOURCE
          end) /\
  trace (snd run) =
    (trace w ++ [Launch (LaunchInstanceDetails.set_availability_domain ad d);
                 Call list_instances])%list /\
  instances_q (snd run) = iq /\
  launch_q (snd run) = q.
Proof.
  intros Hn Hc Hq run found. subst run. cbn [launch_loop]. rewrite Hn.
  unfold attempt, try_launch, raise, except_ServiceError.
  rewrite (classify_launch_quota e Hc). unfold bind.
  rewrite (check_for_existing_instance_answered self _ instances iq)
    by exact Hq.
  fold found. destruct found as [i|]; cbn.
  all: rewrite <- app_assoc; repeat split.
Qed.

Lemma quota_error_checks_existing_once_witness :
  let w := Sample.world [] [Data [Sample.X ARM_SHAPE "RUNNING"]]
             [Error Sample.quota_400; Data tt] in
  next (advance 1 (itertools_cycle Sample.zones)) =
    Ok ("kWVD:AD-2", advance 2 (itertools_cycle Sample.zones)) /\
  code Sample.quota_400 = "LimitExceeded" /\
  instances_q w = [Data [Sample.X ARM_SHAPE "RUNNING"]] /\
  fst (launch_loop (Sample.manager Sample.arm_config)
         [Error Sample.quota_400; Data tt]
         (advance 1 (itertools_cycle Sample.zones))
         (Sample.launch_details_in "kWVD:AD-1") w)
  = Return (Sample.X ARM_SHAPE "RUNNING").
Proof.
  intros w.
  assert (H1 : next (advance 1 (itertools_cycle Sample.zones)) =
               Ok ("kWVD:AD-2", advance 2 (itertools_cycle Sample.zones)))
    by reflexivity.
  assert (H2 : code Sample.quota_400 = "LimitExceeded") by reflexivity.
  assert (H3 : instances_q w = [Data [Sample.X ARM_SHAPE "RUNNING"]])
    by reflexivity.
  split; [exact H1|]. split; [exact H2|]. split; [exact H3|].
  exact (proj1 (quota_error_checks_existing_once
                  (Sample.manager Sample.arm_config) Sample.quota_400 [Data tt]
                  _ _ _ (Sample.launch_details_in "kWVD:AD-1") w _ [] H1 H2 H3)).
Defined.

(** ** The confirmation poll *)

(** Rounds that find nothing each cost one listing and one sleep of 60. *)
Lemma poll_missed self missed :
  Forall (finds_nothing (config self)) missed ->
  forall rounds w rest,
    instances_q w = (map Data missed ++ rest)%list ->
    exists w',
      poll self (List.length missed + rounds) w = poll self rounds w' /\
      trace w' = (trace w ++ concat (repeat missed_round (List.length missed)))%list /\
      instances_q w' = rest /\
      launch_q w' = launch_q w.
Proof.
  intros Hall. induction Hall as [|l missed Hl Hall IH]; intros rounds w rest Hq.
  - exists w. cbn. rewrite app_nil_r. repeat split. exact Hq.
  - cbn [List.length Nat.add poll]. unfold bind at 1.
    rewrite (check_for_existing_instance_answered self w l (map Data missed ++ rest))
      by exact Hq.
    rewrite Hl. unfold bind, sleep.
    destruct (IH rounds
                (log (Sleep 60)
                   (set_instances_q (map Data missed ++ rest)
                      (log (Call list_instances) w)))
                rest eq_refl) as [w' [Hrun [Ht [Hi Hl']]]].
    exists w'. split; [exact Hrun|]. split; [|split; assumption].
    rewrite Ht. cbn. rewrite <- !app_assoc. reflexivity.
Qed.

(** C4 (amended): after an accepted launch call the finder is polled for
    at most 5 rounds.  A round that finds nothing is followed by a sleep
    of 60, the fifth one too.  If a round among the five finds a qualifying
    instance, that instance is the result and nothing follows the listing.
    If five rounds find nothing the run ends, after five listings and five
    sleeps, in the [RuntimeError] of the failed verification, that is
    FAILED(VERIFICATION_TIMEOUT), without another launch call. *)
Theorem confirmation_poll self q cyc ad cyc' d w missed :
  next cyc = Ok (ad, cyc') ->
  Forall (finds_nothing (config self)) missed ->
  let run := launch_loop self (Data tt :: q) cyc d w in
  let launched := Launch (LaunchInstanceDetails.set_availability_domain ad d) in
  (forall hit i iq,
     List.length missed < 5 ->
     instances_q w = (map Data missed ++ Data hit :: iq)%list ->
     select_existing (config self) (target_instances (config self) hit) = Some i ->
     fst run = Return i /\
     acquisition_outcome (fst run) = Some (SUCCESS i) /\
     trace (snd run) =
       (trace w ++ [launched] ++
        concat (repeat missed_round (List.length missed)) ++
        [Call list_instances])%list /\
     launch_q (snd run) = q) /\
  (forall iq,
     List.length missed = 5 ->
     instances_q w = (map Data missed ++ iq)%list ->
     fst run = Raise (RuntimeError InstanceVerificationFailed) /\
     acquisition_outcome (fst run) = Some (FAILED VERIFICATION_TIMEOUT) /\
     trace (snd run) =
       (trace w ++ [launched] ++ concat (repeat missed_round 5))%list /\
     launch_q (snd run) = q /\
     instances_q (snd run) = iq).
Proof.
  intros Hn Hall run launched. split.
  - intros hit i iq Hlen Hq Hhit.
    destruct (poll_missed self missed Hall (S (4 - List.length missed))
                (set_launch_q q (log launched w)) (Data hit :: iq) Hq)
      as [w' [Hrun [Ht [Hi Hl]]]].
    replace (List.length missed + S (4 - List.length missed)) with 5
      in Hrun by lia.
    assert (E : run = (Return i, set_instances_q iq (log (Call list_instances) w'))).
    { subst run. cbn [launch_loop]. rewrite Hn. fold launched.
      unfold attempt, try_launch, bind. rewrite Hrun. cbn [poll]. unfold bind.
      rewrite (check_for_existing_instance_answered self w' hit iq Hi), Hhit.
      reflexivity. }
    rewrite E. cbn. rewrite Ht, Hl. cbn. rewrite <- !app_assoc. repeat split.
  - intros iq Hlen Hq.
    destruct (poll_missed self missed Hall 0
                (set_launch_q q (log launched w)) iq Hq)
      as [w' [Hrun [Ht [Hi Hl]]]].
    rewrite Hlen in Hrun, Ht. change (5 + 0) with 5 in Hrun.
    assert (E : run = (Raise (RuntimeError InstanceVerificationFailed), w')).
    { subst run. cbn [launch_loop]. rewrite Hn. fold launched.
      unfold attempt, try_launch, bind. rewrite Hrun. reflexivity. }
    rewrite E. cbn [fst snd acquisition_outcome]. rewrite Ht, Hl, Hi. cbn.
    rewrite <- !app_assoc. repeat split.
Qed.

Lemma confirmation_poll_witness :
  let w := Sample.world [] [Data []; Data []; Data [Sample.X ARM_SHAPE "STARTING"]]
             [Data tt] in
  next (advance 1 (itertools_cycle Sample.zones)) =
    Ok ("kWVD:AD-2", advance 2 (itertools_cycle Sample.zones)) /\
  Forall (finds_nothing Sample.arm_config) [[]; []] /\
  List.length [@nil Instance.t; []] < 5 /\
  fst (launch_loop (Sample.manager Sample.arm_config) [Data tt]
         (advance 1 (itertools_cycle Sample.zones))
         (Sample.launch_details_in "kWVD:AD-1") w)
  = Return (Sample.X ARM_SHAPE "STARTING").
Proof.
  intros w.
  assert (H1 : next (advance 1 (itertools_cycle Sample.zones)) =
               Ok ("kWVD:AD-2", advance 2 (itertools_cycle Sample.zones)))
    by reflexivity.
  assert (H2 : Forall (finds_nothing Sample.arm_config) [[]; []])
    by (repeat constructor).
  assert (H3 : List.length [@nil Instance.t; []] < 5) by (cbn; lia).
  split; [exact H1|]. split; [exact H2|]. split; [exact H3|].
  exact (proj1 (proj1 (confirmation_poll
                         (Sample.manager Sample.arm_config) [] _ _ _
                         (Sample.launch_details_in "kWVD:AD-1") w _ H1 H2)
                  [Sample.X ARM_SHAPE "STARTING"] _ [] H3 eq_refl eq_refl)).
Defined.

(** C4 (as stated, refuted): a launch call is accepted and five listings
    show no instance; the run ends in FAILED(VERIFICATION_TIMEOUT) after
    five sleeps of 60, not four, and the last thing it did was to sleep. *)
Lemma poll_sleeps_after_last_round :
  let run := launch_new_instance (Sample.manager Sample.arm_config)
               (Sample.world [Data Sample.zones] (repeat (Data []) 5) [Data tt]) in
  acquisition_outcome (fst run) = Some (FAILED VERIFICATION_TIMEOUT) /\
  calls (trace (snd run)) =
    [list_availability_domains; list_instances; list_instances; list_instances;
     list_instances; list_instances] /\
  sleeps (trace (snd run)) = [60; 60; 60; 60; 60]%Z /\
  sleeps (trace (snd run)) <> [60; 60; 60; 60]%Z /\
  last (trace (snd run)) (Call list_instances) = Sleep 60.
Proof.
  cbv zeta. repeat split; try reflexivity.
  vm_compute. discriminate.
Qed.

(** ** No availability domain matches *)

Lemma calls_log_call m w : calls (trace (log (Call m) w)) = (calls (trace w) ++ [m])%list.
Proof. unfold calls, log, set_trace; cbn [trace]. now rewrite flat_map_app. Qed.

Lemma calls_log_sleep s w : calls (trace (log (Sleep s) w)) = calls (trace w).
Proof.
  unfold calls, log, set_trace; cbn [trace].
  rewrite flat_map_app. cbn. now rewrite app_nil_r.
Qed.

Lemma launch_zones_log_call m w :
  launch_zones (trace (log (Call m) w)) = launch_zones (trace w).
Proof.
  unfold launch_zones, log, set_trace; cbn [trace].
  rewrite flat_map_app. cbn. now rewrite app_nil_r.
Qed.

Lemma launch_zones_log_sleep s w :
  launch_zones (trace (log (Sleep s) w)) = launch_zones (trace w).
Proof.
  unfold launch_zones, log, set_trace; cbn [trace].
  rewrite flat_map_app. cbn. now rewrite app_nil_r.
Qed.

(** Listing the availability domains makes calls to that method only, at
    least one, and touches no other queue. *)
Lemma list_availability_domains_frame wait q :
  forall w,
    let r := _execute_api_call_loop wait ep_list_availability_domains q w in
    (exists n, calls (trace (snd r)) =
               (calls (trace w) ++ repeat list_availability_domains (S n))%list) /\
    launch_zones (trace (snd r)) = launch_zones (trace w) /\
    subnets_q (snd r) = subnets_q w /\
    images_q (snd r) = images_q w /\
    instances_q (snd r) = instances_q w /\
    launch_q (snd r) = launch_q w.
Proof.
  induction q as [|resp q IH]; intros w; cbn [_execute_api_call_loop].
  - cbn [snd method ep_list_availability_domains].
    rewrite calls_log_call, launch_zones_log_call.
    split; [exists 0; reflexivity | repeat split].
  - assert (Hstop : forall o,
      let r := (o : Outcome (list string),
                set_pending ep_list_availability_domains q
                  (log (Call (method ep_list_availability_domains)) w)) in
      (exists n, calls (trace (snd r)) =
                 (calls (trace w) ++ repeat list_availability_domains (S n))%list) /\
      launch_zones (trace (snd r)) = launch_zones (trace w) /\
      subnets_q (snd r) = subnets_q w /\ images_q (snd r) = images_q w /\
      instances_q (snd r) = instances_q w /\ launch_q (snd r) = launch_q w).
    { intros o. cbn [snd]. split; [exists 0|split; [|repeat split]].
      - exact (calls_log_call list_availability_domains w).
      - exact (launch_zones_log_call list_availability_domains w). }
    destruct resp as [a|e]; [apply Hstop|].
    destruct (classify_wrapper e) as [[| |]|x]; try apply Hstop.
    destruct (sleep_cases wait
                (set_pending ep_list_availability_domains q
                   (log (Call (method ep_list_availability_domains)) w)))
      as [[x [E _]]|E]; rewrite E; [apply Hstop|].
    match goal with
    | |- context [_execute_api_call_loop wait _ q ?w1] =>
        destruct (IH w1) as [[n Hc] [Hz [Hs [Him [Hin Hl]]]]]
    end.
    split; [exists (S n)|split; [|repeat split; assumption]].
    + rewrite Hc, calls_log_sleep.
      change (calls (trace (set_pending ep_list_availability_domains q
                              (log (Call (method ep_list_availability_domains)) w))))
        with (calls (trace (log (Call list_availability_domains) w))).
      rewrite calls_log_call, <- app_assoc. reflexivity.
    + rewrite Hz, launch_zones_log_sleep.
      exact (launch_zones_log_call list_availability_domains w).
Qed.

(** C7 (amended): when the listing of availability domains leaves no
    candidate, [launch_new_instance] ends there in the [RuntimeError] for
    missing availability domains, that is FAILED(NO_ZONES_AVAILABLE).  The
    provider calls it made are the calls, at least one, that listed the
    availability domains; there is no launch call, and the responses
    queued for subnets, images, instances and launches are untouched. *)
Theorem no_zones_ends_before_other_lookups self w w' :
  find_availability_domains self w = (Return [], w') ->
  launch_new_instance self w =
    (Raise (RuntimeError (NoAvailabilityDomains (Config.free_ad_list (config self)))),
     w') /\
  acquisition_outcome (fst (launch_new_instance self w)) =
    Some (FAILED NO_ZONES_AVAILABLE) /\
  (exists n, calls (trace w') =
             (calls (trace w) ++ repeat list_availability_domains (S n))%list) /\
  launch_zones (trace w') = launch_zones (trace w) /\
  subnets_q w' = subnets_q w /\
  images_q w' = images_q w /\
  instances_q w' = instances_q w /\
  launch_q w' = launch_q w.
Proof.
  intros Hf.
  assert (E : launch_new_instance self w =
              (Raise (RuntimeError (NoAvailabilityDomains
                                      (Config.free_ad_list (config self)))), w')).
  { unfold launch_new_instance. unfold bind at 1. rewrite Hf. reflexivity. }
  split; [exact E|]. rewrite E. split; [reflexivity|].
  unfold find_availability_domains, bind, _execute_api_call in Hf.
  pose proof (list_availability_domains_frame
                (Config.wait_time_secs (config self))
                (pending ep_list_availability_domains w) w) as Hframe.
  cbv zeta in Hframe.
  destruct (_execute_api_call_loop _ ep_list_availability_domains _ w)
    as [[all_ads|x|] w1]; cbn in Hf; inversion Hf; subst w1.
  exact Hframe.
Qed.

Lemma no_zones_ends_before_other_lookups_witness :
  let self := Sample.manager Sample.arm_config in
  let w := Sample.world [Data ["kWVD:AD-4"]] [] [Data tt] in
  let w' := snd (find_availability_domains self w) in
  find_availability_domains self w = (Return [], w') /\
  acquisition_outcome (fst (launch_new_instance self w)) =
    Some (FAILED NO_ZONES_AVAILABLE) /\
  launch_q w' = [Data tt].
Proof.
  intros self w w'.
  assert (H : find_availability_domains self w = (Return [], w')) by reflexivity.
  split; [exact H|].
  destruct (no_zones_ends_before_other_lookups self w w' H)
    as [_ [Ho [_ [_ [_ [_ [_ Hl]]]]]]].
  split; [exact Ho | exact Hl].
Defined.

(** C7 (as stated, refuted): the provider lists one availability domain,
    which matches none of the configured suffixes; the run ends in
    FAILED(NO_ZONES_AVAILABLE) after one provider call, not zero. *)
Lemma no_zones_run_calls_the_provider :
  let run := launch_new_instance (Sample.manager Sample.arm_config)
               (Sample.world [Data ["kWVD:AD-4"]] [] [Data tt]) in
  acquisition_outcome (fst run) = Some (FAILED NO_ZONES_AVAILABLE) /\
  calls (trace (snd run)) = [list_availability_domains] /\
  calls (trace (snd run)) <> [].
Proof.
  cbv zeta. repeat split; try reflexivity. vm_compute. discriminate.
Qed.

(** ** Which instance the finder picks *)

Lemma target_instances_two_running cfg x y z :
  Instance.shape x = Config.compute_shape cfg ->
  Instance.shape y = Config.compute_shape cfg ->
  Instance.shape z <> Config.compute_shape cfg ->
  Instance.lifecycle_state x = "RUNNING" ->
  Instance.lifecycle_state y = "RUNNING" ->
  target_instances cfg [x; y; z] = [x; y].
Proof.
  intros Hx Hy Hz Sx Sy. apply String.eqb_neq in Hz.
  unfold target_instances. cbn [filter].
  rewrite Hx, Hy, Sx, Sy, Hz, String.eqb_refl. reflexivity.
Qed.

Lemma target_instances_two_stopped cfg x y z :
  Instance.shape z <> Config.compute_shape cfg ->
  Instance.lifecycle_state x = "STOPPED" ->
  Instance.lifecycle_state y = "STOPPED" ->
  target_instances cfg [x; y; z] = [].
Proof.
  intros Hz Sx Sy. apply String.eqb_neq in Hz.
  unfold target_instances. cbn [filter].
  rewrite Sx, Sy, Hz, !andb_false_r. reflexivity.
Qed.

Lemma select_existing_nil cfg : select_existing cfg [] = None.
Proof.
  unfold select_existing. cbn.
  rewrite !andb_false_r. now destruct (String.eqb _ _).
Qed.

(** C8 (amended): the provider lists [x; y; z], where [x] and [y] have the
    configured shape and [z] has another.  With [x] and [y] RUNNING: for
    the micro shape the finder returns [y] when the second micro instance
    is wanted and [x] when it is not; for the ARM shape it returns [x]
    either way.  The accepted states are no part of the criteria: with [x]
    and [y] STOPPED the finder returns none, under every configuration. *)
Theorem ordinal_selection self w x y z iq :
  instances_q w = Data [x; y; z] :: iq ->
  Instance.shape x = Config.compute_shape (config self) ->
  Instance.shape y = Config.compute_shape (config self) ->
  Instance.shape z <> Config.compute_shape (config self) ->
  let found := fst (check_for_existing_instance self w) in
  (Instance.lifecycle_state x = "RUNNING" ->
   Instance.lifecycle_state y = "RUNNING" ->
   (Config.compute_shape (config self) = E2_MICRO_SHAPE ->
    found = Return (Some (if Config.is_second_micro_instance (config self)
                          then y else x))) /\
   (Config.compute_shape (config self) = ARM_SHAPE ->
    found = Return (Some x))) /\
  (Instance.lifecycle_state x = "STOPPED" ->
   Instance.lifecycle_state y = "STOPPED" ->
   found = Return None).
Proof.
  intros Hq Hx Hy Hz found. subst found.
  rewrite (check_for_existing_instance_answered self w _ iq Hq). cbn [fst].
  split.
  - intros Sx Sy.
    rewrite (target_instances_two_running _ x y z Hx Hy Hz Sx Sy).
    unfold select_existing. split; intros Hs; rewrite Hs; cbn.
    + now destruct (Config.is_second_micro_instance (config self)).
    + reflexivity.
  - intros Sx Sy.
    rewrite (target_instances_two_stopped _ x y z Hz Sx Sy).
    now rewrite select_existing_nil.
Qed.

Lemma ordinal_selection_witness :
  let self := Sample.manager (Sample.micro_config true) in
  let x := Sample.X E2_MICRO_SHAPE "RUNNING" in
  let y := Sample.Y E2_MICRO_SHAPE "RUNNING" in
  let z := Sample.Z ARM_SHAPE "RUNNING" in
  let w := Sample.world [] [Data [x; y; z]] [] in
  instances_q w = [Data [x; y; z]] /\
  Instance.shape x = E2_MICRO_SHAPE /\
  Instance.shape y = E2_MICRO_SHAPE /\
  Instance.shape z <> E2_MICRO_SHAPE /\
  Instance.lifecycle_state x = "RUNNING" /\
  Instance.lifecycle_state y = "RUNNING" /\
  fst (check_for_existing_instance self w) = Return (Some y).
Proof.
  intros self x y z w.
  assert (Hz : Instance.shape z <> E2_MICRO_SHAPE) by discriminate.
  repeat (split; [first [reflexivity | exact Hz]|]).
  exact (proj1 (proj1 (ordinal_selection self w x y z [] eq_refl eq_refl
                         eq_refl Hz)
                  eq_refl eq_refl) eq_refl).
Defined.

(** C8 (as stated, refuted): with the ARM shape configured and the second
    instance asked for, the finder returns the first of two running ARM
    instances, not the second. *)
Lemma arm_second_ordinal_returns_first :
  let found := fst (check_for_existing_instance
                      (Sample.manager Sample.arm_second_config)
                      (Sample.world []
                         [Data [Sample.X ARM_SHAPE "RUNNING";
                                Sample.Y ARM_SHAPE "RUNNING";
                                Sample.Z E2_MICRO_SHAPE "RUNNING"]] [])) in
  Config.is_second_micro_instance Sample.arm_second_config = true /\
  found = Return (Some (Sample.X ARM_SHAPE "RUNNING")) /\
  found <> Return (Some (Sample.Y ARM_SHAPE "RUNNING")).
Proof.
  cbv zeta. repeat split. vm_compute. discriminate.
Qed.

(** ** Which zone a launch call goes to *)

Lemma launch_zones_app t1 t2 :
  launch_zones (t1 ++ t2) = (launch_zones t1 ++ launch_zones t2)%list.
Proof. unfold launch_zones. apply flat_map_app. Qed.

Lemma launch_zones_retried wait zones d n :
  forall k, launch_zones (retried_attempts wait zones d k n) =
            map (rotation zones) (seq k n).
Proof.
  induction n as [|n IH]; intros k; [reflexivity|].
  unfold retried_attempts in *. cbn [seq flat_map map].
  rewrite launch_zones_app, IH. reflexivity.
Qed.

Lemma match_nonempty {A B} (l : list A) (a b : B) :
  l <> [] -> match l with [] => a | _ :: _ => b end = b.
Proof. destruct l; [contradiction | reflexivity]. Qed.

(** The template takes the first value of the cycler, so the loop starts at
    the second: when the configuration supplies subnet and image, the key
    file exists, the launch call fails [n] times with retryable errors and
    is then accepted, and the first listing shows the instance, the [n+1]
    launch calls went to the rotation's values number 1 to [n+1] counted
    from 0. *)
Lemma launch_new_instance_zones self w all_ads aq zones subnet image key errs q hit iq i :
  sleepable (Config.wait_time_secs (config self)) ->
  availability_domains_q w = Data all_ads :: aq ->
  filter (fun name =>
            existsb (fun free_ad => PyStr.endswith name free_ad)
                    (Config.free_ad_list (config self)))
         all_ads = zones ->
  zones <> [] ->
  Config.subnet_id (config self) = Some subnet -> subnet <> EmptyString ->
  Config.image_id (config self) = Some image -> image <> EmptyString ->
  ssh_keys_file w = Some key ->
  Forall (fun e => classify_launch e = Ok RETRYABLE) errs ->
  launch_q w = (map Error errs ++ Data tt :: q)%list ->
  instances_q w = Data hit :: iq ->
  select_existing (config self) (target_instances (config self) hit) = Some i ->
  let run := launch_new_instance self w in
  fst run = Return i /\
  launch_zones (trace (snd run)) =
    (launch_zones (trace w) ++
     map (rotation zones) (seq 1 (S (List.length errs))))%list.
Proof.
  intros Hw Hads Hzones Hne Hsub Hsubne Himg Himgne Hkey Hall Hlq Hiq Hhit run.
  assert (Hr : run = launch_new_instance self w) by reflexivity.
  clearbody run.
  unfold launch_new_instance, find_availability_domains in Hr.
  unfold bind at 1 2 in Hr. unfold _execute_api_call at 1 in Hr.
  cbn [pending ep_list_availability_domains] in Hr. rewrite Hads in Hr.
  cbn [_execute_api_call_loop ret] in Hr. rewrite Hzones in Hr.
  set (w1 := set_pending ep_list_availability_domains aq
               (log (Call (method ep_list_availability_domains)) w)) in Hr.
  rewrite (match_nonempty zones _ _ Hne) in Hr.
  unfold find_subnet_id, find_image_id in Hr. rewrite Hsub, Himg in Hr.
  destruct subnet as [|c1 s1]; [contradiction|].
  destruct image as [|c2 s2]; [contradiction|].
  unfold bind at 1 in Hr. cbn [ret] in Hr.
  unfold bind at 1 in Hr. cbn [ret] in Hr.
  unfold bind at 1 in Hr. unfold _get_ssh_public_key in Hr.
  change (ssh_keys_file w1) with (ssh_keys_file w) in Hr. rewrite Hkey in Hr.
  pose proof (next_advance zones 0 Hne) as Hn0. cbn [advance] in Hn0.
  rewrite Hn0 in Hr.
  change (launch_q w1) with (launch_q w) in Hr. rewrite Hlq in Hr.
  match type of Hr with
  | context [launch_loop self _ _ ?d0 w1] =>
      destruct (launch_loop_retries self zones errs Hw Hne Hall 1 d0 w1 (Data tt :: q))
        as [d' [w' [Hrun [Hd [Ht Hq']]]]]
  end.
  change (step_cycle (itertools_cycle zones))
    with (advance 1 (itertools_cycle zones)) in Hr.
  rewrite Hrun in Hr. cbn [launch_loop] in Hr.
  rewrite (next_advance zones (1 + List.length errs) Hne) in Hr.
  unfold attempt, try_launch in Hr. cbn [poll] in Hr. unfold bind in Hr.
  erewrite check_for_existing_instance_answered in Hr
    by (cbn; rewrite Hq'; exact Hiq).
  rewrite Hhit in Hr. cbn in Hr. subst run. cbn [fst snd].
  split; [reflexivity|].
  unfold set_instances_q, set_launch_q, log, set_trace; cbn [trace].
  assert (Hw1 : launch_zones (trace w1) = launch_zones (trace w))
    by exact (launch_zones_log_call list_availability_domains w).
  rewrite !launch_zones_app, Ht, launch_zones_app, launch_zones_retried, Hw1.
  rewrite seq_S, map_app, <- !app_assoc. reflexivity.
Qed.

(** C2 (as the code has it): three availability domains match, the launch
    call fails twice with a retryable error and is then accepted, and the
    first listing shows the instance.  The run succeeds with that instance
    after three launch calls, but they went to the second, the third and
    the first domain: the accepted call used the fourth value of the
    rotation, not the third, because building the template had already
    taken the first. *)
Theorem first_launch_call_skips_first_zone :
  let run := launch_new_instance (Sample.manager Sample.arm_config)
               (Sample.world [Data Sample.zones]
                  [Data [Sample.X ARM_SHAPE "PROVISIONING"]]
                  [Error Sample.out_of_capacity; Error Sample.out_of_capacity;
                   Data tt]) in
  acquisition_outcome (fst run) =
    Some (SUCCESS (Sample.X ARM_SHAPE "PROVISIONING")) /\
  launch_zones (trace (snd run)) = ["kWVD:AD-2"; "kWVD:AD-3"; "kWVD:AD-1"] /\
  map (rotation Sample.zones) [0; 1; 2] = ["kWVD:AD-1"; "kWVD:AD-2"; "kWVD:AD-3"] /\
  launch_zones (trace (snd run)) = map (rotation Sample.zones) [1; 2; 3] /\
  sleeps (trace (snd run)) = [60; 60]%Z /\
  calls (trace (snd run)) = [list_availability_domains; list_instances].
Proof.
  cbv zeta. repeat split; reflexivity.
Qed.

(** ** The wrapper, in general *)

Lemma endpoints_are_lookups :
  lookup_endpoint ep_list_availability_domains /\
  lookup_endpoint ep_list_subnets /\
  lookup_endpoint ep_list_images /\
  lookup_endpoint ep_list_instances.
Proof. repeat split. Qed.




(** ** The cycler, in general *)

Lemma take_next_advance zones n :
  zones <> [] ->
  forall k, take_next n (advance k (itertools_cycle zones)) =
            map (rotation zones) (seq k n).
Proof.
  intros Hne. induction n as [|n IH]; intros k; [reflexivity|].
  cbn [take_next seq map]. rewrite (next_advance zones k Hne).
  now rewrite IH.
Qed.

(** X2: [n] successive calls of [next] on the cycler of a non-empty list
    yield the list's elements in order, starting again at the first after
    the last: the call number [k] yields the element at [k mod len].  On
    the cycler of the empty list [next] raises [StopIteration]. *)
Theorem cycle_yields_rotation zones n :
  (zones <> [] ->
   take_next n (itertools_cycle zones) = map (rotation zones) (seq 0 n)) /\
  next (itertools_cycle []) = Raises StopIteration.
Proof.
  split; [|reflexivity].
  intros Hne. exact (take_next_advance zones n Hne 0).
Qed.

Lemma cycle_yields_rotation_witness :
  Sample.zones <> [] /\
  take_next 7 (itertools_cycle Sample.zones) =
  ["kWVD:AD-1"; "kWVD:AD-2"; "kWVD:AD-3"; "kWVD:AD-1"; "kWVD:AD-2";
   "kWVD:AD-3"; "kWVD:AD-1"].
Proof.
  assert (H : Sample.zones <> []) by discriminate.
  split; [exact H|].
  exact (proj1 (cycle_yields_rotation Sample.zones 7) H).
Defined.

(** ** The lookups of the preparation *)

Lemma endswith_suffix (s suffix : string) :
  PyStr.endswith s suffix = true <-> exists pre, s = pre ++ suffix.
Proof.
  induction s as [|c s IH]; cbn [PyStr.endswith]; rewrite orb_true_iff.
  - split.
    + intros [H|H]; [|discriminate]. apply String.eqb_eq in H.
      exists EmptyString. exact H.
    + intros [pre H]. left. apply String.eqb_eq.
      destruct pre; [exact H | discriminate].
  - rewrite String.eqb_eq, IH. split.
    + intros [H|[pre H]].
      * exists EmptyString. exact H.
      * exists (String c pre). cbn. now rewrite H.
    + intros [[|c' pre] H]; cbn in H.
      * now left.
      * right. exists pre. now inversion H.
Qed.

Lemma find_availability_domains_answered self w all_ads aq :
  availability_domains_q w = Data all_ads :: aq ->
  find_availability_domains self w =
  (Return (filter (fun name =>
                     existsb (fun free_ad => PyStr.endswith name free_ad)
                             (Config.free_ad_list (config self)))
                  all_ads),
   set_availability_domains_q aq (log (Call list_availability_domains) w)).
Proof.
  intros Hq. unfold find_availability_domains, bind, _execute_api_call.
  cbn [pending ep_list_availability_domains]. rewrite Hq. reflexivity.
Qed.

(** X3: when the provider lists its availability domains, the candidates
    are exactly the listed names that end with one of the configured
    suffixes, kept in the provider's order (they are the listing run
    through a filter). *)
Theorem find_availability_domains_keeps_matching self w all_ads aq :
  availability_domains_q w = Data all_ads :: aq ->
  exists zones,
    fst (find_availability_domains self w) = Return zones /\
    (forall name,
       In name zones <->
       In name all_ads /\
       exists free_ad pre,
         In free_ad (Config.free_ad_list (config self)) /\
         name = pre ++ free_ad) /\
    (exists keep, zones = filter keep all_ads).
Proof.
  intros Hq. rewrite (find_availability_domains_answered self w all_ads aq Hq).
  eexists. split; [reflexivity|]. split.
  - intros name. rewrite filter_In, existsb_exists. split.
    + intros [Hin [free_ad [Hf He]]]. split; [exact Hin|].
      apply endswith_suffix in He. destruct He as [pre He].
      now exists free_ad, pre.
    + intros [Hin [free_ad [pre [Hf He]]]]. split; [exact Hin|].
      exists free_ad. split; [exact Hf|]. apply endswith_suffix. now exists pre.
  - eexists. reflexivity.
Qed.

Lemma find_availability_domains_keeps_matching_witness :
  let self := Sample.manager Sample.arm_config in
  let w := Sample.world [Data ["kWVD:AD-4"; "kWVD:AD-2"; "kWVD:AD-1"]] [] [] in
  availability_domains_q w = [Data ["kWVD:AD-4"; "kWVD:AD-2"; "kWVD:AD-1"]] /\
  exists zones, fst (find_availability_domains self w) = Return zones.
Proof.
  intros self w.
  assert (H : availability_domains_q w =
              [Data ["kWVD:AD-4"; "kWVD:AD-2"; "kWVD:AD-1"]]) by reflexivity.
  split; [exact H|].
  destruct (find_availability_domains_keeps_matching self w _ [] H)
    as [zones [Hz _]].
  exists zones. exact Hz.
Defined.

Lemma endswith_empty (s : string) : PyStr.endswith s EmptyString = true.
Proof. induction s as [|c s IH]; [reflexivity | exact IH]. Qed.

Lemma filter_all {A} (f : A -> bool) (l : list A) :
  (forall x, In x l -> f x = true) -> filter f l = l.
Proof.
  induction l as [|x l IH]; intros H; [reflexivity|].
  cbn [filter]. rewrite (H x (or_introl eq_refl)).
  f_equal. apply IH. intros y Hy. apply H. now right.
Qed.

(** X4: an empty suffix among the configured patterns matches every
    name, so every listed availability domain becomes a candidate. *)
Theorem empty_pattern_matches_every_domain self w all_ads aq :
  In EmptyString (Config.free_ad_list (config self)) ->
  availability_domains_q w = Data all_ads :: aq ->
  fst (find_availability_domains self w) = Return all_ads.
Proof.
  intros Hin Hq. rewrite (find_availability_domains_answered self w all_ads aq Hq).
  cbn [fst]. f_equal. apply filter_all. intros name _.
  apply existsb_exists. exists EmptyString. split; [exact Hin|].
  apply endswith_empty.
Qed.

Lemma empty_pattern_matches_every_domain_witness :
  let self := mkOciManager
                (Config.mk ["AD-1"; EmptyString] "free-arm" 60 None ARM_SHAPE
                           false None "Canonical Ubuntu" "22.04" false 50)
                "ocid1.tenancy.t" in
  let w := Sample.world [Data ["kWVD:AD-4"; "kWVD:AD-2"]] [] [] in
  In EmptyString (Config.free_ad_list (config self)) /\
  fst (find_availability_domains self w) = Return ["kWVD:AD-4"; "kWVD:AD-2"].
Proof.
  intros self w.
  assert (H : In EmptyString (Config.free_ad_list (config self)))
    by (right; left; reflexivity).
  split; [exact H|].
  exact (empty_pattern_matches_every_domain self w _ [] H eq_refl).
Defined.

Lemma find_first {A} (f : A -> bool) (l : list A) :
  match find f l with
  | Some x => exists pre post,
                l = (pre ++ x :: post)%list /\ f x = true /\
                Forall (fun y => f y = false) pre
  | None => Forall (fun y => f y = false) l
  end.
Proof.
  induction l as [|a l IH]; cbn [find]; [constructor|].
  destruct (f a) eqn:Ha.
  - exists [], l. split; [reflexivity|]. split; [exact Ha | constructor].
  - destruct (find f l) as [x|].
    + destruct IH as [pre [post [Hl [Hx Hpre]]]].
      exists (a :: pre), post. rewrite Hl.
      split; [reflexivity|]. split; [exact Hx | now constructor].
    + now constructor.
Qed.

Lemma image_matches_eqb cfg image :
  String.eqb (Image.operating_system image) (Config.os cfg) &&
  String.eqb (Image.operating_system_version image) (Config.os_version cfg)
  = true <-> image_matches cfg image.
Proof.
  unfold image_matches. now rewrite andb_true_iff, !String.eqb_eq.
Qed.

(** X5: with no image configured, [find_image_id] lists the images once,
    writes the listing to the images file, and then returns the id of the
    first listed image of the configured operating system and version; if
    no listed image is of that system and version it raises the
    [RuntimeError] for a missing image. *)
Theorem find_image_id_takes_first_match self w images iq :
  PyStr.truthy (Config.image_id (config self)) = false ->
  images_q w = Data images :: iq ->
  let run := find_image_id self w in
  trace (snd run) = (trace w ++ [Call list_images; WriteImagesList images])%list /\
  images_q (snd run) = iq /\
  ((exists pre image post,
      images = (pre ++ image :: post)%list /\
      image_matches (config self) image /\
      Forall (fun other => ~ image_matches (config self) other) pre /\
      fst run = Return (Image.id image)) \/
   (Forall (fun other => ~ image_matches (config self) other) images /\
    fst run = Raise (RuntimeError (NoImage (Config.os (config self))
                                           (Config.os_version (config self)))))).
Proof.
  intros Hcfg Hq run.
  assert (E : run =
    (match find (fun image =>
                   String.eqb (Image.operating_system image)
                              (Config.os (config self)) &&
                   String.eqb (Image.operating_system_version image)
                              (Config.os_version (config self))) images with
     | Some image => Return (Image.id image)
     | None => Raise (RuntimeError (NoImage (Config.os (config self))
                                            (Config.os_version (config self))))
     end,
     log (WriteImagesList images) (set_images_q iq (log (Call list_images) w)))).
  { subst run. unfold find_image_id.
    assert (Hlist : forall k : M string,
              match Config.image_id (config self) with
              | Some (String c s) => ret (String c s)
              | _ => k
              end = k).
    { intros k. destruct (Config.image_id (config self)) as [[|c s]|];
        [reflexivity | discriminate Hcfg | reflexivity]. }
    rewrite Hlist. unfold bind, _execute_api_call, emit.
    cbn [pending ep_list_images]. rewrite Hq.
    cbn [_execute_api_call_loop]. now destruct (find _ images). }
  rewrite E. cbn [fst snd]. split.
  { unfold log, set_trace, set_images_q; cbn [trace].
    now rewrite <- app_assoc. }
  split; [reflexivity|].
  pose proof (find_first
                (fun image =>
                   String.eqb (Image.operating_system image)
                              (Config.os (config self)) &&
                   String.eqb (Image.operating_system_version image)
                              (Config.os_version (config self))) images) as Hf.
  assert (Hno : forall l,
            Forall (fun y =>
                      String.eqb (Image.operating_system y)
                                 (Config.os (config self)) &&
                      String.eqb (Image.operating_system_version y)
                                 (Config.os_version (config self)) = false) l ->
            Forall (fun other => ~ image_matches (config self) other) l).
  { intros l Hl. eapply Forall_impl; [|exact Hl]. cbn. intros a Ha Hm.
    apply image_matches_eqb in Hm. congruence. }
  destruct (find _ images) as [image|].
  - left. destruct Hf as [pre [post [Hl [Hx Hpre]]]].
    exists pre, image, post. split; [exact Hl|].
    split; [now apply image_matches_eqb|]. split; [now apply Hno | reflexivity].
  - right. split; [now apply Hno | reflexivity].
Qed.

Lemma find_image_id_takes_first_match_witness :
  let self := mkOciManager
                (Config.mk ["AD-1"] "free-arm" 60 None ARM_SHAPE
                           false None "Canonical Ubuntu" "22.04" false 50)
                "ocid1.tenancy.t" in
  let images := [Image.mk "Oracle-Linux-9" "ocid1.image.ol9" "Oracle Linux" "9";
                 Image.mk "Ubuntu-22.04-a" "ocid1.image.u1" "Canonical Ubuntu" "22.04";
                 Image.mk "Ubuntu-22.04-b" "ocid1.image.u2" "Canonical Ubuntu" "22.04"] in
  let w := mkWorld [] [] [Data images] [] [] None "BBBB" [] in
  PyStr.truthy (Config.image_id (config self)) = false /\
  images_q w = [Data images] /\
  fst (find_image_id self w) = Return "ocid1.image.u1" /\
  images_q (snd (find_image_id self w)) = [].
Proof.
  intros self images w.
  split; [reflexivity|]. split; [reflexivity|]. split; [reflexivity|].
  exact (proj1 (proj2 (find_image_id_takes_first_match self w images []
                         eq_refl eq_refl))).
Defined.

(** ** Which instance the finder picks, in general *)

Lemma In_mem (x : string) (l : list string) : In x l -> PyStr.mem x l = true.
Proof.
  intros H. unfold PyStr.mem. apply existsb_exists. exists x.
  split; [exact H | apply String.eqb_refl].
Qed.

Lemma target_test_qualifies cfg inst :
  String.eqb (Instance.shape inst) (Config.compute_shape cfg) &&
  PyStr.mem (Instance.lifecycle_state inst) ACCEPTED_STATES = true <->
  qualifies cfg inst.
Proof.
  unfold qualifies. rewrite andb_true_iff, String.eqb_eq. split.
  - intros [Hs Hm]. split; [exact Hs | exact (mem_In _ _ Hm)].
  - intros [Hs Hm]. split; [exact Hs | exact (In_mem _ _ Hm)].
Qed.

Lemma rejected_not_qualifying cfg l :
  Forall (fun inst =>
            String.eqb (Instance.shape inst) (Config.compute_shape cfg) &&
            PyStr.mem (Instance.lifecycle_state inst) ACCEPTED_STATES = false) l ->
  Forall (fun inst => ~ qualifies cfg inst) l.
Proof.
  intros H. eapply Forall_impl; [|exact H]. intros inst Hf Hq.
  cbv beta in Hf. apply target_test_qualifies in Hq. congruence.
Qed.

Lemma filter_nil_Forall {A} (f : A -> bool) (l : list A) :
  filter f l = [] -> Forall (fun y => f y = false) l.
Proof.
  induction l as [|a l IH]; cbn [filter]; [constructor|].
  destruct (f a) eqn:Ha; [discriminate|]. intros H. constructor; auto.
Qed.

Lemma filter_head {A} (f : A -> bool) (l : list A) x rest :
  filter f l = x :: rest ->
  exists pre post,
    l = (pre ++ x :: post)%list /\ f x = true /\
    Forall (fun y => f y = false) pre /\ filter f post = rest.
Proof.
  induction l as [|a l IH]; cbn [filter]; [discriminate|].
  destruct (f a) eqn:Ha.
  - intros H. inversion H; subst. exists [], l.
    split; [reflexivity|]. split; [exact Ha|]. split; [constructor | reflexivity].
  - intros H. destruct (IH H) as [pre [post [Hl [Hx [Hpre Hpost]]]]].
    exists (a :: pre), post. rewrite Hl.
    split; [reflexivity|]. split; [exact Hx|]. split; [now constructor | exact Hpost].
Qed.

Lemma filter_last {A} (f : A -> bool) (l : list A) :
  forall front x,
    filter f l = (front ++ [x])%list ->
    exists pre post,
      l = (pre ++ x :: post)%list /\ f x = true /\
      filter f pre = front /\ Forall (fun y => f y = false) post.
Proof.
  induction l as [|a l IH]; intros front x; cbn [filter].
  - destruct front; discriminate.
  - destruct (f a) eqn:Ha.
    + destruct front as [|b front]; cbn [app]; intros H; inversion H; subst.
      * exists [], l. split; [reflexivity|]. split; [exact Ha|].
        split; [cbn [filter]; congruence | apply filter_nil_Forall; congruence].
      * destruct (IH front x H2) as [pre [post [Hl [Hx [Hpre Hpost]]]]].
        exists (b :: pre), post. rewrite Hl. split; [reflexivity|].
        split; [exact Hx|]. split; [|exact Hpost].
        cbn [filter]. now rewrite Ha, Hpre.
    + intros H. destruct (IH front x H) as [pre [post [Hl [Hx [Hpre Hpost]]]]].
      exists (a :: pre), post. rewrite Hl. split; [reflexivity|].
      split; [exact Hx|]. split; [|exact Hpost].
      cbn [filter]. now rewrite Ha.
Qed.

Lemma nth_error_last_index {A} (l : list A) (x : A) :
  nth_error l (List.length l - 1) = Some x ->
  exists front, l = (front ++ [x])%list.
Proof.
  intros H.
  assert (Hne : l <> []) by (intros ->; discriminate H).
  destruct (exists_last Hne) as [front [y Hl]].
  subst l. rewrite length_app in H. cbn [List.length] in H.
  replace (List.length front + 1 - 1) with (List.length front) in H by lia.
  rewrite nth_error_app2 in H by lia. rewrite Nat.sub_diag in H. cbn in H.
  inversion H. now exists front.
Qed.

(** X6: for the ARM shape, and for the micro shape when the first
    instance is wanted, the finder reports the earliest listed instance of
    the configured shape in an accepted state, and reports none exactly
    when no listed instance is of that shape in such a state. *)
Theorem finder_reports_first_qualifying self w instances iq :
  instances_q w = Data instances :: iq ->
  Config.compute_shape (config self) = ARM_SHAPE \/
  (Config.compute_shape (config self) = E2_MICRO_SHAPE /\
   Config.is_second_micro_instance (config self) = false) ->
  let found := fst (check_for_existing_instance self w) in
  (exists pre i post,
     instances = (pre ++ i :: post)%list /\
     qualifies (config self) i /\
     Forall (fun j => ~ qualifies (config self) j) pre /\
     found = Return (Some i)) \/
  (Forall (fun j => ~ qualifies (config self) j) instances /\
   found = Return None).
Proof.
  intros Hq Hcfg found. subst found.
  rewrite (check_for_existing_instance_answered self w instances iq Hq).
  cbn [fst].
  assert (Hsel : forall targets,
            select_existing (config self) targets = hd_error targets).
  { intros targets. unfold select_existing.
    destruct Hcfg as [Hs|[Hs Hsecond]]; rewrite Hs; cbn.
    - destruct targets; reflexivity.
    - rewrite Hsecond. destruct targets; reflexivity. }
  rewrite Hsel. unfold target_instances.
  destruct (filter _ instances) as [|x rest] eqn:Hf.
  - right. split; [|reflexivity].
    apply rejected_not_qualifying. now apply filter_nil_Forall.
  - left. destruct (filter_head _ _ _ _ Hf) as [pre [post [Hl [Hx [Hpre _]]]]].
    exists pre, x, post. split; [exact Hl|].
    split; [now apply target_test_qualifies|].
    split; [now apply rejected_not_qualifying | reflexivity].
Qed.

Lemma finder_reports_first_qualifying_witness :
  let self := Sample.manager (Sample.micro_config false) in
  let w := Sample.world []
             [Data [Sample.X E2_MICRO_SHAPE "TERMINATED";
                    Sample.Y E2_MICRO_SHAPE "STARTING";
                    Sample.Z E2_MICRO_SHAPE "RUNNING"]] [] in
  Config.compute_shape (config self) = E2_MICRO_SHAPE /\
  Config.is_second_micro_instance (config self) = false /\
  fst (check_for_existing_instance self w) =
    Return (Some (Sample.Y E2_MICRO_SHAPE "STARTING")).
Proof.
  intros self w. split; [reflexivity|]. split; [reflexivity|].
  destruct (finder_reports_first_qualifying self w _ [] eq_refl
              (or_intror (conj eq_refl eq_refl)))
    as [[pre [i [post [_ [_ [_ Hfound]]]]]]|[_ Hnone]].
  - reflexivity.
  - reflexivity.
Defined.

(** X7: for the micro shape when the second instance is wanted, the
    finder reports the latest listed qualifying instance provided an
    earlier listed one qualifies too, and reports none exactly when no two
    listed instances qualify. *)
Theorem finder_reports_last_of_two self w instances iq :
  instances_q w = Data instances :: iq ->
  Config.compute_shape (config self) = E2_MICRO_SHAPE ->
  Config.is_second_micro_instance (config self) = true ->
  let found := fst (check_for_existing_instance self w) in
  (exists pre i post,
     instances = (pre ++ i :: post)%list /\
     qualifies (config self) i /\
     Exists (qualifies (config self)) pre /\
     Forall (fun j => ~ qualifies (config self) j) post /\
     found = Return (Some i)) \/
  ((forall pre a mid b post,
      instances = (pre ++ a :: mid ++ b :: post)%list ->
      ~ (qualifies (config self) a /\ qualifies (config self) b)) /\
   found = Return None).
Proof.
  intros Hq Hs Hsecond found. subst found.
  rewrite (check_for_existing_instance_answered self w instances iq Hq).
  cbn [fst]. unfold select_existing, target_instances. rewrite Hs, Hsecond.
  change (String.eqb E2_MICRO_SHAPE ARM_SHAPE) with false.
  change (String.eqb E2_MICRO_SHAPE E2_MICRO_SHAPE) with true.
  cbn [andb negb].
  set (keep := fun inst =>
                 String.eqb (Instance.shape inst) E2_MICRO_SHAPE &&
                 PyStr.mem (Instance.lifecycle_state inst) ACCEPTED_STATES).
  destruct (Nat.leb 2 (List.length (filter keep instances))) eqn:Hlen.
  - left. apply Nat.leb_le in Hlen.
    destruct (nth_error (filter keep instances)
                (List.length (filter keep instances) - 1)) as [x|] eqn:Hn.
    2:{ apply nth_error_None in Hn. lia. }
    destruct (nth_error_last_index _ _ Hn) as [front Hfront].
    destruct (filter_last keep instances front x Hfront)
      as [pre [post [Hl [Hx [Hpre Hpost]]]]].
    exists pre, x, post. split; [exact Hl|].
    assert (Hk : forall inst, keep inst = true <-> qualifies (config self) inst).
    { intros inst. unfold keep. rewrite <- Hs. apply target_test_qualifies. }
    split; [now apply Hk|]. split; [|split; [|reflexivity]].
    + rewrite Hfront, length_app in Hlen. cbn [List.length] in Hlen.
      destruct front as [|y front]; [cbn in Hlen; lia|].
      apply Exists_exists. exists y. split.
      * assert (Hy : In y (filter keep pre)) by (rewrite Hpre; now left).
        now apply filter_In in Hy.
      * apply Hk. assert (Hy : In y (filter keep pre)) by (rewrite Hpre; now left).
        now apply filter_In in Hy.
    + eapply Forall_impl; [|exact Hpost]. cbn. intros inst Hf Hqual.
      apply Hk in Hqual. congruence.
  - right. split; [|reflexivity].
    apply Nat.leb_gt in Hlen. intros pre a mid b post Hl [Ha Hb].
    assert (Hk : forall inst, qualifies (config self) inst -> keep inst = true).
    { intros inst Hqual. unfold keep. rewrite <- Hs.
      now apply target_test_qualifies. }
    rewrite Hl in Hlen. rewrite filter_app in Hlen. cbn [filter] in Hlen.
    rewrite (Hk a Ha), filter_app in Hlen. cbn [filter] in Hlen.
    rewrite (Hk b Hb) in Hlen.
    rewrite length_app in Hlen. cbn [List.length] in Hlen.
    rewrite length_app in Hlen. cbn [List.length] in Hlen. lia.
Qed.

Lemma finder_reports_last_of_two_witness :
  let self := Sample.manager (Sample.micro_config true) in
  let w := Sample.world []
             [Data [Sample.X E2_MICRO_SHAPE "RUNNING";
                    Sample.Y E2_MICRO_SHAPE "STARTING";
                    Sample.Z E2_MICRO_SHAPE "STOPPED"]] [] in
  Config.compute_shape (config self) = E2_MICRO_SHAPE /\
  Config.is_second_micro_instance (config self) = true /\
  fst (check_for_existing_instance self w) =
    Return (Some (Sample.Y E2_MICRO_SHAPE "STARTING")).
Proof.
  intros self w. split; [reflexivity|]. split; [reflexivity|].
  destruct (finder_reports_last_of_two self w _ [] eq_refl eq_refl eq_refl)
    as [[pre [i [post [_ [_ [_ [_ Hfound]]]]]]]|[_ Hnone]].
  - reflexivity.
  - reflexivity.
Defined.

(** ** What the run may return and raise *)

Lemma yields_ret {A} (P : A -> Prop) E (a : A) : P a -> yields (ret a) P E.
Proof. intros H w. exact H. Qed.

Lemma yields_raise {A} (P : A -> Prop) (E : Exn -> Prop) x :
  E x -> yields (@raise A x) P E.
Proof. intros H w. exact H. Qed.

Lemma yields_bind {A B} (m : M A) (k : A -> M B) P Q (E : Exn -> Prop) :
  yields m P E -> (forall a, P a -> yields (k a) Q E) -> yields (bind m k) Q E.
Proof.
  intros Hm Hk w. unfold bind. specialize (Hm w).
  destruct (m w) as [[a|x|] w']; cbn in *.
  - exact (Hk a Hm w').
  - exact Hm.
  - exact I.
Qed.

Lemma yields_weaken {A} (m : M A) (P Q : A -> Prop) (E F : Exn -> Prop) :
  yields m P E -> (forall a, P a -> Q a) -> (forall x, E x -> F x) ->
  yields m Q F.
Proof.
  intros Hm HPQ HEF w. specialize (Hm w).
  destruct (fst (m w)) as [a|x|]; cbn in *; auto.
Qed.

Lemma yields_unit {A} (m : M A) E :
  (forall w x, fst (m w) <> Raise x) -> yields m (fun _ => True) E.
Proof.
  intros H w. specialize (H w). destruct (fst (m w)) as [a|x|]; cbn; auto.
  now destruct (H x).
Qed.

Lemma yields_sleep (secs : Z) (E : Exn -> Prop) :
  ((secs < 0)%Z -> E ValueError) ->
  ((SLEEP_MAX < secs)%Z -> E OverflowError) ->
  yields (sleep secs) (fun _ => True) E.
Proof.
  intros H1 H2 w. unfold sleep. destruct (Z.ltb_spec secs 0); cbn; auto.
  destruct (Z.ltb_spec SLEEP_MAX secs); cbn; auto.
Qed.

Lemma yields_execute_api_call {A} self (ep : Endpoint A) :
  yields (_execute_api_call self ep) (fun _ => True) (wrapper_exn self).
Proof.
  intros w. unfold _execute_api_call.
  generalize (pending ep w). intros q. revert w.
  induction q as [|r q IH]; intros w; cbn [_execute_api_call_loop].
  - exact I.
  - destruct r as [a|e]; [exact I|].
    unfold classify_wrapper.
    destruct (is_temporary e) as [[|]|x] eqn:Ht.
    + unfold sleep.
      destruct (Z.ltb_spec (Config.wait_time_secs (config self)) 0).
      * right. left. now split.
      * destruct (Z.ltb_spec SLEEP_MAX (Config.wait_time_secs (config self))).
        -- right. right. left. now split.
        -- apply IH.
    + destruct (String.eqb _ _); right; right; right; now exists e.
    + apply is_temporary_raises_only_TypeError in Ht. subst x. now left.
Qed.

Lemma wrapper_exn_loop self x : wrapper_exn self x -> loop_exn self x.
Proof. intros H. now left. Qed.

Section FinderReports.

Variable self : OciManager.
Variable P : Instance.t -> Prop.
Hypothesis reported :
  forall instances i,
    select_existing (config self) (target_instances (config self) instances)
    = Some i -> P i.

Lemma yields_check_for_existing_instance :
  yields (check_for_existing_instance self)
         (fun r => forall i, r = Some i -> P i) (wrapper_exn self).
Proof.
  unfold check_for_existing_instance.
  eapply yields_bind; [apply yields_execute_api_call|].
  intros instances _. apply yields_ret. intros i Hi. exact (reported _ _ Hi).
Qed.

Lemma yields_poll rounds :
  yields (poll self rounds) (fun r => forall i, r = Some i -> P i)
         (wrapper_exn self).
Proof.
  induction rounds as [|rounds IH]; cbn [poll].
  - apply yields_ret. discriminate.
  - eapply yields_bind; [apply yields_check_for_existing_instance|].
    intros [i|] Hi.
    + apply yields_ret. exact Hi.
    + eapply yields_bind with (P := fun _ => True).
      * apply yields_sleep; unfold SLEEP_MAX; lia.
      * intros _ _. exact IH.
Qed.

Lemma yields_except_ServiceError e :
  yields (except_ServiceError self e) (step_satisfies P) (loop_exn self).
Proof.
  unfold except_ServiceError, classify_launch.
  destruct (String.eqb (code e) "LimitExceeded").
  - eapply yields_bind.
    + eapply yields_weaken; [apply yields_check_for_existing_instance| |].
      * intros a Ha. exact Ha.
      * exact (wrapper_exn_loop self).
    + intros [i|] Hi.
      * apply yields_ret. now apply Hi.
      * apply yields_raise. right. now right.
  - destruct (is_temporary e) as [[|]|x] eqn:Ht.
    + eapply yields_bind with (P := fun _ => True).
      * apply yields_sleep; intros Hbad; left; right;
          [left | right; left]; now split.
      * intros _ _. now apply yields_ret.
    + apply yields_raise. left. right. right. right. now exists e.
    + apply is_temporary_raises_only_TypeError in Ht. subst x.
      apply yields_raise. left. now left.
Qed.

Lemma yields_attempt r :
  yields (attempt self r) (step_satisfies P) (loop_exn self).
Proof.
  intros w. unfold attempt, try_launch.
  destruct r as [u|e].
  - pose proof (yields_poll 5 w) as Hp. unfold bind.
    destruct (poll self 5 w) as [[[i|]|x|] w']; cbn in Hp |- *.
    + now apply Hp.
    + right. now left.
    + destruct x; try (now apply wrapper_exn_loop).
      apply yields_except_ServiceError.
    + exact I.
  - cbn. apply yields_except_ServiceError.
Qed.

(** With a non-empty list behind the cycler [next] never fails, so the
    loop raises nothing but what a pass raises. *)
Lemma launch_loop_yields zones q :
  zones <> [] ->
  forall k d w,
    outcome_in P (loop_exn self)
      (fst (launch_loop self q (advance k (itertools_cycle zones)) d w)).
Proof.
  intros Hne. induction q as [|r q IH]; intros k d w; cbn [launch_loop];
    rewrite (next_advance zones k Hne).
  - exact I.
  - pose proof (yields_attempt r
        (set_launch_q q
           (log (Launch (LaunchInstanceDetails.set_availability_domain
                           (rotation zones k) d)) w))) as Ha.
    destruct (attempt self r _) as [[[|i]|x|] w2]; cbn in Ha |- *.
    + apply (IH (S k)).
    + exact Ha.
    + exact Ha.
    + exact I.
Qed.

Lemma yields_launch_new_instance :
  yields (launch_new_instance self) P (run_exn self).
Proof.
  unfold launch_new_instance, find_availability_domains.
  eapply yields_bind with (P := fun _ => True).
  { eapply yields_bind with (P := fun _ => True).
    - eapply yields_weaken; [apply yields_execute_api_call|auto|].
      intros x Hx. left. now left.
    - intros; now apply yields_ret. }
  intros [|ad ads] _.
  { apply yields_raise. right. now left. }
  eapply yields_bind with (P := fun _ => True).
  { unfold find_subnet_id.
    assert (Hlist : yields
              (bind (_execute_api_call self ep_list_subnets)
                    (fun subnets => match subnets with
                                    | [] => raise (RuntimeError NoSubnets)
                                    | first :: _ => ret first
                                    end))
              (fun _ => True) (run_exn self)).
    { eapply yields_bind with (P := fun _ => True).
      - eapply yields_weaken; [apply yields_execute_api_call|auto|].
        intros x Hx. left. now left.
      - intros [|first rest] _.
        + apply yields_raise. right. right. now left.
        + now apply yields_ret. }
    destruct (Config.subnet_id (config self)) as [[|c s]|];
      [exact Hlist | now apply yields_ret | exact Hlist]. }
  intros subnet_id _.
  eapply yields_bind with (P := fun _ => True).
  { unfold find_image_id.
    assert (Hlist : yields
              (bind (_execute_api_call self ep_list_images)
                 (fun images =>
                    bind (emit (WriteImagesList images))
                      (fun _ =>
                         match find (fun image =>
                                 String.eqb (Image.operating_system image)
                                            (Config.os (config self)) &&
                                 String.eqb (Image.operating_system_version image)
                                            (Config.os_version (config self)))
                                 images with
                         | Some image => ret (Image.id image)
                         | None => raise (RuntimeError
                                            (NoImage (Config.os (config self))
                                               (Config.os_version (config self))))
                         end)))
              (fun _ => True) (run_exn self)).
    { eapply yields_bind with (P := fun _ => True).
      - eapply yields_weaken; [apply yields_execute_api_call|auto|].
        intros x Hx. left. now left.
      - intros images _. eapply yields_bind with (P := fun _ => True).
        + intros w. exact I.
        + intros _ _. destruct (find _ images).
          * now apply yields_ret.
          * apply yields_raise. right. right. now right. }
    destruct (Config.image_id (config self)) as [[|c s]|];
      [exact Hlist | now apply yields_ret | exact Hlist]. }
  intros image_id _.
  eapply yields_bind with (P := fun _ => True).
  { intros w. unfold _get_ssh_public_key. now destruct (ssh_keys_file w). }
  intros ssh_key _.
  assert (Hne : ad :: ads <> []) by discriminate.
  pose proof (next_advance (ad :: ads) 0 Hne) as Hn. cbn [advance] in Hn.
  rewrite Hn. intros w.
  match goal with
  | |- context [launch_loop self _ _ ?d w] =>
      pose proof (launch_loop_yields (ad :: ads) (launch_q w) Hne 1 d w) as Hl
  end.
  cbn [advance] in Hl.
  destruct (fst (launch_loop self (launch_q w) _ _ w)) as [i|x|];
    cbn in Hl |- *; [exact Hl | now left | exact I].
Qed.

End FinderReports.



Lemma select_existing_invalid_shape cfg targets :
  PyStr.mem (Config.compute_shape cfg) VALID_SHAPES = false ->
  select_existing cfg targets = None.
Proof.
  unfold PyStr.mem, VALID_SHAPES. cbn [existsb]. rewrite orb_false_r.
  intros H. apply orb_false_iff in H. destruct H as [H1 H2].
  unfold select_existing. now rewrite H1, H2.
Qed.

(** X9: with a shape that is not one of the two valid shapes (which the
    configuration check refuses) the finder never reports an instance,
    whatever the provider lists, and [launch_new_instance] never returns
    one. *)
Theorem invalid_shape_never_succeeds self w :
  PyStr.mem (Config.compute_shape (config self)) VALID_SHAPES = false ->
  (forall i, fst (check_for_existing_instance self w) <> Return (Some i)) /\
  (forall i, fst (launch_new_instance self w) <> Return i).
Proof.
  intros Hshape.
  assert (Hrep : forall instances i,
            select_existing (config self)
              (target_instances (config self) instances) = Some i -> False).
  { intros instances i Hi.
    rewrite (select_existing_invalid_shape _ _ Hshape) in Hi. discriminate. }
  split; intros i Hi.
  - pose proof (yields_check_for_existing_instance self (fun _ => False) Hrep w)
      as Hy.
    rewrite Hi in Hy. exact (Hy i eq_refl).
  - pose proof (yields_launch_new_instance self (fun _ => False) Hrep w) as Hy.
    rewrite Hi in Hy. exact Hy.
Qed.

Lemma invalid_shape_never_succeeds_witness :
  let self := mkOciManager
                (Config.mk ["AD-1"] "free" 60 (Some "ocid1.image.a")
                           "VM.Standard.E4.Flex" false (Some "ocid1.subnet.a")
                           "Canonical Ubuntu" "22.04" false 50)
                "ocid1.tenancy.t" in
  let w := Sample.world [] [Data [Sample.X "VM.Standard.E4.Flex" "RUNNING"]] [] in
  PyStr.mem (Config.compute_shape (config self)) VALID_SHAPES = false /\
  fst (check_for_existing_instance self w) <>
    Return (Some (Sample.X "VM.Standard.E4.Flex" "RUNNING")).
Proof.
  intros self w.
  assert (H : PyStr.mem (Config.compute_shape (config self)) VALID_SHAPES = false)
    by reflexivity.
  split; [exact H|].
  exact (proj1 (invalid_shape_never_succeeds self w H) _).
Defined.

(** ** What the run adds to the trace *)

Lemma extends_refl ok w : extends_with ok w w.
Proof. exists []. split; [now rewrite app_nil_r | constructor]. Qed.

Lemma extends_trans ok w1 w2 w3 :
  extends_with ok w1 w2 -> extends_with ok w2 w3 -> extends_with ok w1 w3.
Proof.
  intros [t1 [H1 F1]] [t2 [H2 F2]]. exists (t1 ++ t2)%list. split.
  - now rewrite H2, H1, app_assoc.
  - apply Forall_app. now split.
Qed.

Lemma extends_same_trace ok w w' : trace w' = trace w -> extends_with ok w w'.
Proof.
  intros H. exists []. split; [now rewrite app_nil_r | constructor].
Qed.

Lemma extends_log (ok : Event -> Prop) ev w : ok ev -> extends_with ok w (log ev w).
Proof. intros H. exists [ev]. split; [reflexivity | now constructor]. Qed.

Lemma extends_weaken (ok ok' : Event -> Prop) w w' :
  (forall ev, ok ev -> ok' ev) -> extends_with ok w w' -> extends_with ok' w w'.
Proof.
  intros Himp [t [H F]]. exists t. split; [exact H|].
  eapply Forall_impl; [exact Himp | exact F].
Qed.

Lemma emits_ret {A} ok (a : A) : emits ok (ret a).
Proof. intros w. apply extends_refl. Qed.

Lemma emits_raise {A} ok x : emits ok (@raise A x).
Proof. intros w. apply extends_refl. Qed.

Lemma emits_bind {A B} ok (m : M A) (k : A -> M B) :
  emits ok m -> (forall a, emits ok (k a)) -> emits ok (bind m k).
Proof.
  intros Hm Hk w. unfold bind. specialize (Hm w).
  destruct (m w) as [[a|x|] w']; cbn [snd] in *; [|exact Hm|exact Hm].
  eapply extends_trans; [exact Hm | apply Hk].
Qed.

Lemma emits_weaken {A} (ok ok' : Event -> Prop) (m : M A) :
  (forall ev, ok ev -> ok' ev) -> emits ok m -> emits ok' m.
Proof. intros Himp Hm w. eapply extends_weaken; [exact Himp | apply Hm]. Qed.

Lemma emits_sleep (ok : Event -> Prop) s : ok (Sleep s) -> emits ok (sleep s).
Proof.
  intros H w. destruct (sleep_cases s w) as [[x [E _]]|E]; rewrite E; cbn [snd].
  - apply extends_refl.
  - now apply extends_log.
Qed.

Lemma emits_emit (ok : Event -> Prop) ev : ok ev -> emits ok (emit ev).
Proof. intros H w. now apply extends_log. Qed.

Lemma keeps_ret {A} (a : A) : keeps_launch_q (ret a).
Proof. intros w. reflexivity. Qed.

Lemma keeps_raise {A} x : keeps_launch_q (@raise A x).
Proof. intros w. reflexivity. Qed.

Lemma keeps_bind {A B} (m : M A) (k : A -> M B) :
  keeps_launch_q m -> (forall a, keeps_launch_q (k a)) -> keeps_launch_q (bind m k).
Proof.
  intros Hm Hk w. unfold bind. specialize (Hm w).
  destruct (m w) as [[a|x|] w']; cbn [snd] in *; [|exact Hm|exact Hm].
  now rewrite Hk.
Qed.

Lemma keeps_sleep s : keeps_launch_q (sleep s).
Proof.
  intros w. destruct (sleep_cases s w) as [[x [E _]]|E]; rewrite E; reflexivity.
Qed.

Lemma keeps_emit ev : keeps_launch_q (emit ev).
Proof. intros w. reflexivity. Qed.

Lemma emits_execute_api_call {A} self (ep : Endpoint A) :
  lookup_endpoint ep ->
  emits (fun ev => ev = Call (method ep) \/
                   ev = Sleep (Config.wait_time_secs (config self)))
        (_execute_api_call self ep).
Proof.
  intros [_ [Ht _]] w. unfold _execute_api_call.
  generalize (pending ep w). intros q. revert w.
  induction q as [|r q IH]; intros w; cbn [_execute_api_call_loop].
  - cbn [snd]. apply extends_log. now left.
  - assert (Hcall : extends_with
                      (fun ev => ev = Call (method ep) \/
                                 ev = Sleep (Config.wait_time_secs (config self)))
                      w (set_pending ep q (log (Call (method ep)) w))).
    { eapply extends_trans; [apply extends_log; now left|].
      apply extends_same_trace. apply Ht. }
    destruct r as [a|e]; [exact Hcall|].
    destruct (classify_wrapper e) as [[| |]|x]; try exact Hcall.
    destruct (sleep_cases (Config.wait_time_secs (config self))
                (set_pending ep q (log (Call (method ep)) w)))
      as [[x [E _]]|E]; rewrite E; [exact Hcall|].
    eapply extends_trans; [exact Hcall|].
    eapply extends_trans; [apply extends_log; now right | apply IH].
Qed.

Lemma keeps_execute_api_call {A} self (ep : Endpoint A) :
  lookup_endpoint ep -> keeps_launch_q (_execute_api_call self ep).
Proof.
  intros [_ [_ Hl]] w. unfold _execute_api_call.
  generalize (pending ep w). intros q. revert w.
  induction q as [|r q IH]; intros w; cbn [_execute_api_call_loop].
  - reflexivity.
  - assert (Hcall : launch_q (set_pending ep q (log (Call (method ep)) w)) =
                    launch_q w) by (now rewrite Hl).
    destruct r as [a|e]; [exact Hcall|].
    destruct (classify_wrapper e) as [[| |]|x]; try exact Hcall.
    destruct (sleep_cases (Config.wait_time_secs (config self))
                (set_pending ep q (log (Call (method ep)) w)))
      as [[x [E _]]|E]; rewrite E; [exact Hcall|].
    rewrite IH. exact Hcall.
Qed.

Lemma emits_check_for_existing_instance self :
  emits (finder_event self) (check_for_existing_instance self).
Proof.
  unfold check_for_existing_instance. apply emits_bind.
  - eapply emits_weaken; [|apply emits_execute_api_call; repeat split].
    intros ev [H|H]; [now left | now right; right].
  - intros instances. apply emits_ret.
Qed.

Lemma keeps_check_for_existing_instance self :
  keeps_launch_q (check_for_existing_instance self).
Proof.
  unfold check_for_existing_instance. apply keeps_bind.
  - apply keeps_execute_api_call. repeat split.
  - intros instances. apply keeps_ret.
Qed.

Lemma emits_poll self rounds : emits (finder_event self) (poll self rounds).
Proof.
  induction rounds as [|rounds IH]; cbn [poll]; [apply emits_ret|].
  apply emits_bind; [apply emits_check_for_existing_instance|].
  intros [i|]; [apply emits_ret|].
  apply emits_bind; [apply emits_sleep; now right; left | intros _; exact IH].
Qed.

Lemma keeps_poll self rounds : keeps_launch_q (poll self rounds).
Proof.
  induction rounds as [|rounds IH]; cbn [poll]; [apply keeps_ret|].
  apply keeps_bind; [apply keeps_check_for_existing_instance|].
  intros [i|]; [apply keeps_ret|].
  apply keeps_bind; [apply keeps_sleep | intros _; exact IH].
Qed.

Lemma emits_except_ServiceError self e :
  emits (finder_event self) (except_ServiceError self e).
Proof.
  unfold except_ServiceError. destruct (classify_launch e) as [[| |]|x].
  - apply emits_bind; [apply emits_sleep; now right; right|].
    intros _. apply emits_ret.
  - apply emits_bind; [apply emits_check_for_existing_instance|].
    intros [i|]; [apply emits_ret | apply emits_raise].
  - apply emits_raise.
  - apply emits_raise.
Qed.

Lemma keeps_except_ServiceError self e :
  keeps_launch_q (except_ServiceError self e).
Proof.
  unfold except_ServiceError. destruct (classify_launch e) as [[| |]|x].
  - apply keeps_bind; [apply keeps_sleep | intros _; apply keeps_ret].
  - apply keeps_bind; [apply keeps_check_for_existing_instance|].
    intros [i|]; [apply keeps_ret | apply keeps_raise].
  - apply keeps_raise.
  - apply keeps_raise.
Qed.

Lemma try_launch_frame self r :
  emits (finder_event self) (try_launch self r) /\
  keeps_launch_q (try_launch self r).
Proof.
  unfold try_launch. destruct r as [u|e].
  - split.
    + apply emits_bind; [apply emits_poll|].
      intros [i|]; [apply emits_ret | apply emits_raise].
    + apply keeps_bind; [apply keeps_poll|].
      intros [i|]; [apply keeps_ret | apply keeps_raise].
  - split; [apply emits_raise | apply keeps_raise].
Qed.

(** A pass of the loop, after its launch call, only lists instances and
    sleeps, and takes no launch response. *)
Lemma attempt_frame self r :
  emits (finder_event self) (attempt self r) /\
  keeps_launch_q (attempt self r).
Proof.
  destruct (try_launch_frame self r) as [He Hk].
  split; intros w; unfold attempt; specialize (He w); specialize (Hk w);
    destruct (try_launch self r w) as [[i|x|] w']; cbn [snd] in *;
    try assumption;
    destruct x; try assumption.
  - eapply extends_trans; [exact He | apply emits_except_ServiceError].
  - now rewrite keeps_except_ServiceError.
Qed.

Lemma launch_zones_finder self t :
  Forall (finder_event self) t -> launch_zones t = [].
Proof.
  induction 1 as [|ev t Hev Ht IH]; [reflexivity|].
  unfold launch_zones in *. cbn [flat_map]. rewrite IH.
  destruct Hev as [->|[->| ->]]; reflexivity.
Qed.

(** After an accepted launch call the listings can only end the pass. *)
Lemma except_never_continues self e w :
  is_temporary e = Ok false ->
  fst (except_ServiceError self e w) <> Return Continue.
Proof.
  intros Ht. unfold except_ServiceError, classify_launch.
  destruct (String.eqb (code e) "LimitExceeded").
  - unfold bind. destruct (check_for_existing_instance self w) as [[[i|]|x|] w'];
      discriminate.
  - rewrite Ht. discriminate.
Qed.

Lemma attempt_accepted_never_continues self u w :
  fst (attempt self (Data u) w) <> Return Continue.
Proof.
  unfold attempt, try_launch.
  pose proof (yields_poll self (fun _ => True) (fun _ _ _ => I) 5 w) as Hp.
  unfold bind. destruct (poll self 5 w) as [[[i|]|x|] w']; cbn in Hp |- *;
    try discriminate.
  destruct x; try discriminate.
  destruct Hp as [Hp|[[Hp _]|[[Hp _]|[e' [He' Ht]]]]];
    [discriminate|discriminate|discriminate|].
  inversion He'; subst e'. now apply except_never_continues.
Qed.

(** X10: once the provider has accepted a launch call, the run makes no
    further launch call, whatever the listings answer: what follows in the
    trace are listings of instances and sleeps only, and the later launch
    responses are never taken. *)
Theorem accepted_launch_is_last self u q cyc ad cyc' d w :
  next cyc = Ok (ad, cyc') ->
  let run := launch_loop self (Data u :: q) cyc d w in
  launch_q (snd run) = q /\
  exists t,
    trace (snd run) =
      (trace w ++ Launch (LaunchInstanceDetails.set_availability_domain ad d) :: t)%list /\
    Forall (finder_event self) t.
Proof.
  intros Hn run. subst run. cbn [launch_loop]. rewrite Hn.
  destruct (attempt_frame self (Data u)) as [He Hk].
  set (w1 := set_launch_q q
               (log (Launch (LaunchInstanceDetails.set_availability_domain ad d)) w)).
  specialize (He w1). specialize (Hk w1).
  pose proof (attempt_accepted_never_continues self u w1) as Hnc.
  destruct He as [t [Ht Hf]].
  assert (Hres : launch_q (snd (attempt self (Data u) w1)) = q /\
                 trace (snd (attempt self (Data u) w1)) =
                 (trace w ++
                  Launch (LaunchInstanceDetails.set_availability_domain ad d) :: t)%list).
  { split; [exact Hk|]. rewrite Ht. unfold w1, set_launch_q, log, set_trace.
    cbn [trace]. now rewrite <- app_assoc. }
  destruct (attempt self (Data u) w1) as [[[|i]|x|] w2]; cbn [fst snd] in *.
  - now destruct Hnc.
  - split; [apply Hres|]. exists t. split; [apply Hres | exact Hf].
  - split; [apply Hres|]. exists t. split; [apply Hres | exact Hf].
  - split; [apply Hres|]. exists t. split; [apply Hres | exact Hf].
Qed.

Lemma accepted_launch_is_last_witness :
  let self := Sample.manager Sample.arm_config in
  let w := Sample.world [] [Error Sample.not_found] [Data tt; Data tt] in
  next (advance 1 (itertools_cycle Sample.zones)) =
    Ok ("kWVD:AD-2", advance 2 (itertools_cycle Sample.zones)) /\
  launch_q (snd (launch_loop self [Data tt; Data tt]
                   (advance 1 (itertools_cycle Sample.zones))
                   (Sample.launch_details_in "kWVD:AD-1") w)) = [Data tt].
Proof.
  intros self w.
  assert (H : next (advance 1 (itertools_cycle Sample.zones)) =
              Ok ("kWVD:AD-2", advance 2 (itertools_cycle Sample.zones)))
    by reflexivity.
  split; [exact H|].
  exact (proj1 (accepted_launch_is_last self tt [Data tt] _ _ _
                  (Sample.launch_details_in "kWVD:AD-1") w H)).
Defined.

(** The zones of the loop's launch calls are consecutive values of the
    rotation. *)
Lemma launch_loop_zones self zones q :
  zones <> [] ->
  forall k d w,
    exists m,
      1 <= m <= S (List.length q) /\
      launch_zones
        (trace (snd (launch_loop self q (advance k (itertools_cycle zones)) d w)))
      = (launch_zones (trace w) ++ map (rotation zones) (seq k m))%list.
Proof.
  intros Hne. induction q as [|r q IH]; intros k d w; cbn [launch_loop];
    rewrite (next_advance zones k Hne).
  - exists 1. split; [cbn; lia|]. cbn [snd].
    unfold log, set_trace; cbn [trace]. now rewrite launch_zones_app.
  - destruct (attempt_frame self r) as [He _].
    set (w1 := set_launch_q q
                 (log (Launch (LaunchInstanceDetails.set_availability_domain
                                 (rotation zones k) d)) w)).
    specialize (He w1). destruct He as [t [Ht Hf]].
    assert (Hz : launch_zones (trace (snd (attempt self r w1))) =
                 (launch_zones (trace w) ++ [rotation zones k])%list).
    { rewrite Ht, launch_zones_app, (launch_zones_finder self t Hf), app_nil_r.
      unfold w1, set_launch_q, log, set_trace; cbn [trace].
      now rewrite launch_zones_app. }
    destruct (attempt self r w1) as [[[|i]|x|] w2]; cbn [fst snd] in *.
    + destruct (IH (S k)
                  (LaunchInstanceDetails.set_availability_domain (rotation zones k) d)
                  w2) as [m [Hm Hrun]].
      exists (S m). split; [cbn; lia|]. rewrite Hrun, Hz.
      cbn [seq map]. now rewrite <- app_assoc.
    + exists 1. split; [cbn; lia | exact Hz].
    + exists 1. split; [cbn; lia | exact Hz].
    + exists 1. split; [cbn; lia | exact Hz].
Qed.

(** X11: the launch calls of the loop go to consecutive values of the
    rotation, starting where the cycler stands, whatever the provider
    answers; there is at least one call and at most one more than there
    are responses. *)
Theorem launch_calls_follow_rotation self zones q :
  zones <> [] ->
  forall k d w,
    exists m,
      1 <= m <= S (List.length q) /\
      launch_zones
        (trace (snd (launch_loop self q (advance k (itertools_cycle zones)) d w)))
      = (launch_zones (trace w) ++ map (rotation zones) (seq k m))%list.
Proof. exact (launch_loop_zones self zones q). Qed.

Lemma launch_calls_follow_rotation_witness :
  Sample.zones <> [] /\
  exists m,
    launch_zones
      (trace (snd (launch_loop (Sample.manager Sample.arm_config)
                     [Error Sample.out_of_capacity; Error Sample.not_found]
                     (advance 2 (itertools_cycle Sample.zones))
                     (Sample.launch_details_in "kWVD:AD-1")
                     (Sample.world [] [] []))))
    = map (rotation Sample.zones) (seq 2 m).
Proof.
  assert (H : Sample.zones <> []) by discriminate.
  split; [exact H|].
  destruct (launch_calls_follow_rotation (Sample.manager Sample.arm_config)
              Sample.zones
              [Error Sample.out_of_capacity; Error Sample.not_found] H 2
              (Sample.launch_details_in "kWVD:AD-1") (Sample.world [] [] []))
    as [m [_ Hm]].
  exists m. exact Hm.
Defined.

(** ** The preparation and the loop, put together *)

Lemma preparation_find_availability_domains self :
  emits (preparation_event self) (find_availability_domains self) /\
  keeps_launch_q (find_availability_domains self).
Proof.
  unfold find_availability_domains. split.
  - apply emits_bind; [|intros; apply emits_ret].
    eapply emits_weaken; [|apply emits_execute_api_call; repeat split].
    intros ev [H|H]; [now left | now right; left].
  - apply keeps_bind; [|intros; apply keeps_ret].
    apply keeps_execute_api_call. repeat split.
Qed.

Lemma preparation_find_subnet_id self :
  emits (preparation_event self) (find_subnet_id self) /\
  keeps_launch_q (find_subnet_id self).
Proof.
  unfold find_subnet_id, preparation_event.
  destruct (Config.subnet_id (config self)) as [[|c s]|]; cbn [PyStr.truthy];
    try (split; [apply emits_ret | apply keeps_ret]).
  all: split.
  all: try (apply keeps_bind;
            [apply keeps_execute_api_call; repeat split
            |intros [|first rest]; [apply keeps_raise | apply keeps_ret]]).
  all: apply emits_bind;
    [|intros [|first rest]; [apply emits_raise | apply emits_ret]].
  all: eapply emits_weaken; [|apply emits_execute_api_call; repeat split].
  all: intros ev [H|H]; [right; right; left; now split | now right; left].
Qed.

Lemma preparation_find_image_id self :
  emits (preparation_event self) (find_image_id self) /\
  keeps_launch_q (find_image_id self).
Proof.
  unfold find_image_id, preparation_event.
  destruct (Config.image_id (config self)) as [[|c s]|]; cbn [PyStr.truthy];
    try (split; [apply emits_ret | apply keeps_ret]).
  all: split.
  all: try (apply keeps_bind;
            [apply keeps_execute_api_call; repeat split|];
            intros images; apply keeps_bind; [apply keeps_emit|];
            intros _; destruct (find _ images);
            [apply keeps_ret | apply keeps_raise]).
  all: apply emits_bind.
  all: try (eapply emits_weaken; [|apply emits_execute_api_call; repeat split];
            intros ev [H|H];
            [right; right; right; left; split; [reflexivity | now left]
            |now right; left]).
  all: intros images; apply emits_bind;
    [apply emits_emit; right; right; right; left;
     split; [reflexivity | right; now exists images]
    |intros _; destruct (find _ images); [apply emits_ret | apply emits_raise]].
Qed.

Lemma preparation_get_ssh_public_key self :
  emits (preparation_event self) (_get_ssh_public_key self) /\
  keeps_launch_q (_get_ssh_public_key self).
Proof.
  split; intros w; unfold _get_ssh_public_key;
    destruct (ssh_keys_file w); cbn [snd].
  - apply extends_refl.
  - eapply extends_trans; [apply extends_log|apply extends_same_trace; reflexivity].
    unfold preparation_event. tauto.
  - reflexivity.
  - reflexivity.
Qed.

Lemma as_configured_any_zone self d ad :
  as_configured self d ->
  as_configured self (LaunchInstanceDetails.set_availability_domain ad d).
Proof. intros H. exact H. Qed.

(** The loop emits listings, sleeps and launch calls of its template. *)
Lemma launch_loop_emits self q :
  forall cyc d w,
    extends_with (fun ev => finder_event self ev \/ launch_of d ev)
                 w (snd (launch_loop self q cyc d w)).
Proof.
  induction q as [|r q IH]; intros cyc d w; cbn [launch_loop];
    destruct (next cyc) as [[ad cyc']|x]; cbn [snd];
    try apply extends_refl.
  - apply extends_log. right. now exists ad.
  - set (d' := LaunchInstanceDetails.set_availability_domain ad d).
    set (w1 := set_launch_q q (log (Launch d') w)).
    assert (H1 : extends_with (fun ev => finder_event self ev \/ launch_of d ev)
                              w w1).
    { eapply extends_trans; [apply extends_log; right; now exists ad|].
      apply extends_same_trace. reflexivity. }
    destruct (attempt_frame self r) as [He _]. specialize (He w1).
    assert (H2 : extends_with (fun ev => finder_event self ev \/ launch_of d ev)
                              w (snd (attempt self r w1))).
    { eapply extends_trans; [exact H1|].
      eapply extends_weaken; [|exact He]. intros ev Hev. now left. }
    destruct (attempt self r w1) as [[[|i]|x|] w2]; cbn [snd] in *;
      try exact H2.
    eapply extends_trans; [exact H2|].
    eapply extends_weaken; [|apply IH].
    intros ev [Hev|[ad' Hev]]; [now left|]. right. exists ad'. exact Hev.
Qed.

(** [launch_new_instance] either ends in its preparation, or is the launch
    loop started after it, over the candidates, from the cycler's second
    value and with a template as configured. *)
Lemma launch_new_instance_stages self w :
  (launch_q (snd (launch_new_instance self w)) = launch_q w /\
   extends_with (preparation_event self) w (snd (launch_new_instance self w)) /\
   forall i, fst (launch_new_instance self w) <> Return i) \/
  (exists zones d w1,
     fst (find_availability_domains self w) = Return zones /\
     zones <> [] /\
     as_configured self d /\
     launch_q w1 = launch_q w /\
     extends_with (preparation_event self) w w1 /\
     launch_new_instance self w =
     launch_loop self (launch_q w1) (advance 1 (itertools_cycle zones)) d w1).
Proof.
  destruct (preparation_find_availability_domains self) as [E1 K1].
  destruct (preparation_find_subnet_id self) as [E2 K2].
  destruct (preparation_find_image_id self) as [E3 K3].
  destruct (preparation_get_ssh_public_key self) as [E4 K4].
  remember (launch_new_instance self w) as run eqn:Hr.
  unfold launch_new_instance in Hr. unfold bind at 1 in Hr.
  specialize (E1 w). specialize (K1 w).
  destruct (find_availability_domains self w) as [[zones|x|] w1];
    cbn [fst snd] in *;
    [|subst run; left; split; [exact K1|]; split; [exact E1 | discriminate]
     |subst run; left; split; [exact K1|]; split; [exact E1 | discriminate]].
  destruct zones as [|z zs];
    [subst run; left; split; [exact K1|]; split; [exact E1 | discriminate]|].
  assert (Hne : z :: zs <> []) by discriminate.
  unfold bind at 1 in Hr.
  specialize (E2 w1). specialize (K2 w1).
  assert (X2 : extends_with (preparation_event self) w
                 (snd (find_subnet_id self w1)))
    by (eapply extends_trans; eassumption).
  rewrite K1 in K2. clear E2.
  destruct (find_subnet_id self w1) as [[subnet|x|] w2]; cbn [fst snd] in *;
    [|subst run; left; split; [exact K2|]; split; [exact X2 | discriminate]
     |subst run; left; split; [exact K2|]; split; [exact X2 | discriminate]].
  unfold bind at 1 in Hr.
  specialize (E3 w2). specialize (K3 w2).
  assert (X3 : extends_with (preparation_event self) w
                 (snd (find_image_id self w2)))
    by (eapply extends_trans; eassumption).
  rewrite K2 in K3. clear E3.
  destruct (find_image_id self w2) as [[image|x|] w3]; cbn [fst snd] in *;
    [|subst run; left; split; [exact K3|]; split; [exact X3 | discriminate]
     |subst run; left; split; [exact K3|]; split; [exact X3 | discriminate]].
  unfold bind at 1 in Hr.
  specialize (E4 w3). specialize (K4 w3).
  assert (X4 : extends_with (preparation_event self) w
                 (snd (_get_ssh_public_key self w3)))
    by (eapply extends_trans; eassumption).
  rewrite K3 in K4. clear E4.
  destruct (_get_ssh_public_key self w3) as [[key|x|] w4]; cbn [fst snd] in *;
    [|subst run; left; split; [exact K4|]; split; [exact X4 | discriminate]
     |subst run; left; split; [exact K4|]; split; [exact X4 | discriminate]].
  pose proof (next_advance (z :: zs) 0 Hne) as Hn. cbn [advance] in Hn.
  rewrite Hn in Hr. right.
  eexists (z :: zs), _, w4. split; [reflexivity|]. split; [exact Hne|].
  split; [|split; [exact K4|split; [exact X4 | exact Hr]]].
  repeat split.
Qed.

Lemma preparation_event_not_launch self ev :
  preparation_event self ev -> not_a_launch ev /\ ev <> Call list_instances.
Proof.
  unfold preparation_event.
  intros [->|[->|[[_ ->]|[[_ [->|[images ->]]]| ->]]]]; split;
    first [exact I | discriminate].
Qed.

Lemma launch_zones_quiet t : Forall not_a_launch t -> launch_zones t = [].
Proof.
  induction 1 as [|ev t Hev Ht IH]; [reflexivity|].
  unfold launch_zones in *. cbn [flat_map]. rewrite IH.
  destruct ev; first [reflexivity | contradiction].
Qed.

Lemma extends_quiet_launch_zones ok w w' :
  (forall ev, ok ev -> not_a_launch ev) ->
  extends_with ok w w' ->
  launch_zones (trace w') = launch_zones (trace w).
Proof.
  intros Hok [t [Ht Hf]]. rewrite Ht, launch_zones_app.
  rewrite (launch_zones_quiet t); [apply app_nil_r|].
  eapply Forall_impl; [exact Hok | exact Hf].
Qed.

(** X12: the launch calls of a run of [launch_new_instance] all submit
    one and the same template, each with some availability domain in it:
    between calls only the zone changes.  That template carries the tenancy
    as compartment, the configured display name (also for the VNIC) and
    shape, the sizing of that shape (4 OCPUs and 24 GB for the ARM shape, 1
    and 1 otherwise), the configured boot volume size and public-IP flag, a
    private DNS record, the source type "image", and the same subnet and
    image in the request and in its VNIC and source details. *)
Theorem launch_requests_as_configured self w :
  exists template,
    as_configured self template /\
    extends_with (fun ev => not_a_launch ev \/ launch_of template ev)
                 w (snd (launch_new_instance self w)).
Proof.
  destruct (launch_new_instance_stages self w)
    as [[_ [He _]]|[zones [d [w1 [_ [_ [Hd [_ [He Hrun]]]]]]]]].
  - exists (LaunchInstanceDetails.mk
              (tenancy_id self) (Config.display_name (config self))
              (Config.compute_shape (config self)) EmptyString EmptyString
              EmptyString
              (CreateVnicDetails.mk (Config.assign_public_ip (config self)) true
                 (Config.display_name (config self)) EmptyString)
              (shape_config_for (config self))
              (InstanceSourceViaImageDetails.mk
                 "image" EmptyString (Config.boot_volume_size (config self)))
              EmptyString).
    split; [repeat split|].
    eapply extends_weaken; [|exact He]. intros ev Hev. left.
    now apply preparation_event_not_launch in Hev.
  - exists d. split; [exact Hd|].
    rewrite Hrun. eapply extends_trans.
    + eapply extends_weaken; [|exact He]. intros ev Hev. left.
      now apply preparation_event_not_launch in Hev.
    + eapply extends_weaken; [|apply launch_loop_emits].
      intros ev [[->|[->| ->]]|Hev]; [left; exact I ..|now right].
Qed.

(** X13: when [launch_new_instance] ends because no availability domain
    matches, no subnet exists, or no image matches, it has made no launch
    call and no listing of instances, and has taken no launch response. *)
Theorem preparation_failure_makes_no_launch self w :
  preparation_failure (fst (launch_new_instance self w)) ->
  launch_q (snd (launch_new_instance self w)) = launch_q w /\
  extends_with (fun ev => not_a_launch ev /\ ev <> Call list_instances)
               w (snd (launch_new_instance self w)).
Proof.
  intros Hfail.
  destruct (launch_new_instance_stages self w)
    as [[Hk [He _]]|[zones [d [w1 [_ [Hne [_ [_ [_ Hrun]]]]]]]]].
  - split; [exact Hk|]. eapply extends_weaken; [|exact He].
    apply preparation_event_not_launch.
  - exfalso. rewrite Hrun in Hfail.
    pose proof (launch_loop_yields self (fun _ => True) (fun _ _ _ => I)
                  zones (launch_q w1) Hne 1 d w1) as Hy.
    destruct (fst (launch_loop self (launch_q w1) _ d w1)) as [i|x|];
      cbn in Hfail, Hy; try contradiction.
    destruct Hy as [[Hx|[[Hx _]|[[Hx _]|[e [Hx _]]]]]|[Hx|Hx]];
      subst x; contradiction.
Qed.

Lemma preparation_failure_makes_no_launch_witness :
  let self := mkOciManager
                (Config.mk ["AD-1"] "free-arm" 60 None ARM_SHAPE
                           false None "Canonical Ubuntu" "22.04" false 50)
                "ocid1.tenancy.t" in
  let w := mkWorld [Data ["kWVD:AD-1"]] [Data []] [] [] [Data tt] None "BBBB" [] in
  fst (launch_new_instance self w) = Raise (RuntimeError NoSubnets) /\
  preparation_failure (fst (launch_new_instance self w)) /\
  launch_q (snd (launch_new_instance self w)) = [Data tt].
Proof.
  intros self w.
  assert (H : preparation_failure (fst (launch_new_instance self w))) by exact I.
  split; [reflexivity|]. split; [exact H|].
  exact (proj1 (preparation_failure_makes_no_launch self w H)).
Defined.

(** X14: when the configuration names a subnet and an image, a run lists
    neither subnets nor images and writes no images file. *)
Theorem configured_ids_skip_lookups self w :
  PyStr.truthy (Config.subnet_id (config self)) = true ->
  PyStr.truthy (Config.image_id (config self)) = true ->
  extends_with (fun ev => ev <> Call list_subnets /\
                          ev <> Call list_images /\
                          forall images, ev <> WriteImagesList images)
               w (snd (launch_new_instance self w)).
Proof.
  intros Hs Hi.
  assert (Hprep : forall ev,
            preparation_event self ev ->
            ev <> Call list_subnets /\ ev <> Call list_images /\
            forall images, ev <> WriteImagesList images).
  { unfold preparation_event.
    intros ev [->|[->|[[Hf _]|[[Hf _]| ->]]]]; try congruence;
      repeat split; try discriminate; intros; discriminate. }
  destruct (launch_new_instance_stages self w)
    as [[_ [He _]]|[zones [d [w1 [_ [_ [_ [_ [He Hrun]]]]]]]]].
  - eapply extends_weaken; [exact Hprep | exact He].
  - rewrite Hrun. eapply extends_trans.
    + eapply extends_weaken; [exact Hprep | exact He].
    + eapply extends_weaken; [|apply launch_loop_emits].
      intros ev [[->|[->| ->]]|[ad ->]];
        repeat split; try discriminate; intros; discriminate.
Qed.

Lemma configured_ids_skip_lookups_witness :
  let self := Sample.manager Sample.arm_config in
  let w := Sample.world [Data Sample.zones]
             [Data [Sample.X ARM_SHAPE "RUNNING"]] [Data tt] in
  PyStr.truthy (Config.subnet_id (config self)) = true /\
  PyStr.truthy (Config.image_id (config self)) = true /\
  extends_with (fun ev => ev <> Call list_subnets /\
                          ev <> Call list_images /\
                          forall images, ev <> WriteImagesList images)
               w (snd (launch_new_instance self w)).
Proof.
  intros self w. split; [reflexivity|]. split; [reflexivity|].
  exact (configured_ids_skip_lookups self w eq_refl eq_refl).
Defined.

Lemma rotation_In zones k : zones <> [] -> In (rotation zones k) zones.
Proof.
  intros Hne. unfold rotation. apply nth_In.
  apply Nat.mod_upper_bound. destruct zones; [contradiction | discriminate].
Qed.

(** X15: every launch call of a run goes to one of the candidates, that
    is to an availability domain the provider listed and that ends with a
    configured suffix. *)
Theorem launch_zones_are_candidates self w z :
  In z (launch_zones (trace (snd (launch_new_instance self w)))) ->
  In z (launch_zones (trace w)) \/
  exists zones,
    fst (find_availability_domains self w) = Return zones /\ In z zones.
Proof.
  intros Hz.
  destruct (launch_new_instance_stages self w)
    as [[_ [He _]]|[zones [d [w1 [Hzones [Hne [_ [_ [He Hrun]]]]]]]]].
  - left. erewrite <- extends_quiet_launch_zones; [exact Hz| |exact He].
    intros ev Hev. now apply preparation_event_not_launch in Hev.
  - rewrite Hrun in Hz.
    destruct (launch_loop_zones self zones (launch_q w1) Hne 1 d w1)
      as [m [_ Hm]].
    rewrite Hm in Hz. apply in_app_or in Hz. destruct Hz as [Hz|Hz].
    + left. erewrite <- extends_quiet_launch_zones; [exact Hz| |exact He].
      intros ev Hev. now apply preparation_event_not_launch in Hev.
    + right. exists zones. split; [exact Hzones|].
      apply in_map_iff in Hz. destruct Hz as [k [<- _]].
      now apply rotation_In.
Qed.

Lemma launch_zones_are_candidates_witness :
  let self := Sample.manager Sample.arm_config in
  let w := Sample.world [Data ["kWVD:AD-4"; "kWVD:AD-2"]] [] [] in
  In "kWVD:AD-2" (launch_zones (trace (snd (launch_new_instance self w)))) /\
  exists zones,
    fst (find_availability_domains self w) = Return zones /\
    In "kWVD:AD-2" zones.
Proof.
  intros self w.
  assert (H : In "kWVD:AD-2"
                 (launch_zones (trace (snd (launch_new_instance self w)))))
    by (left; reflexivity).
  split; [exact H|].
  destruct (launch_zones_are_candidates self w _ H) as [[]|Hz].
  exact Hz.
Defined.

(** ** The key file *)

(** X16: [_get_ssh_public_key] leaves the key file holding the text it
    returns, so a second call returns the same text and changes nothing:
    a key is generated at most once. *)
Theorem get_ssh_public_key_generates_once self w :
  let first := _get_ssh_public_key self w in
  let second := _get_ssh_public_key self (snd first) in
  (exists text, fst first = Return text /\
                ssh_keys_file (snd first) = Some text) /\
  second = first.
Proof.
  cbv zeta. unfold _get_ssh_public_key.
  destruct (ssh_keys_file w) as [text|] eqn:Hf; cbn [fst snd].
  - rewrite Hf. split; [now exists text | reflexivity].
  - cbn [ssh_keys_file set_ssh_keys_file]. split; [|reflexivity].
    eexists. split; reflexivity.
Qed.

(** ** A quota error met while confirming *)



(** ** The subnet *)

(** X18: with no subnet configured (none, or an empty id),
    [find_subnet_id] lists the subnets once and returns the id of the
    first one listed; on an empty listing it raises the [RuntimeError] for
    missing subnets. *)
Theorem find_subnet_id_takes_first self w subnets sq :
  PyStr.truthy (Config.subnet_id (config self)) = false ->
  subnets_q w = Data subnets :: sq ->
  let run := find_subnet_id self w in
  fst run = match subnets with
            | [] => Raise (RuntimeError NoSubnets)
            | first :: _ => Return first
            end /\
  trace (snd run) = (trace w ++ [Call list_subnets])%list /\
  subnets_q (snd run) = sq.
Proof.
  intros Hcfg Hq run.
  assert (E : run =
    (match subnets with
     | [] => Raise (RuntimeError NoSubnets)
     | first :: _ => Return first
     end,
     set_subnets_q sq (log (Call list_subnets) w))).
  { subst run. unfold find_subnet_id.
    assert (Hlist : forall k : M string,
              match Config.subnet_id (config self) with
              | Some (String c s) => ret (String c s)
              | _ => k
              end = k).
    { intros k. destruct (Config.subnet_id (config self)) as [[|c s]|];
        [reflexivity | discriminate Hcfg | reflexivity]. }
    rewrite Hlist. unfold bind, _execute_api_call.
    cbn [pending ep_list_subnets]. rewrite Hq.
    cbn [_execute_api_call_loop]. now destruct subnets. }
  rewrite E. repeat split.
Qed.

Lemma find_subnet_id_takes_first_witness :
  let self := mkOciManager
                (Config.mk ["AD-1"] "free-arm" 60 None ARM_SHAPE
                           false (Some EmptyString) "Canonical Ubuntu" "22.04"
                           false 50)
                "ocid1.tenancy.t" in
  let w := mkWorld [] [Data ["ocid1.subnet.b"; "ocid1.subnet.c"]] [] [] []
             None "BBBB" [] in
  PyStr.truthy (Config.subnet_id (config self)) = false /\
  subnets_q w = [Data ["ocid1.subnet.b"; "ocid1.subnet.c"]] /\
  fst (find_subnet_id self w) = Return "ocid1.subnet.b".
Proof.
  intros self w. split; [reflexivity|]. split; [reflexivity|].
  exact (proj1 (find_subnet_id_takes_first self w _ [] eq_refl eq_refl)).
Defined.

(** ** Errors without the quota code, in both [except] clauses *)

(** X19: for an error whose code is not "LimitExceeded" the two [except]
    clauses act alike.  If its status is one of 429, 500, 502, 503, 504,
    or its code is "TooManyRequests", or its message contains "Out of host
    capacity", then, the wait interval being one a sleep takes, the
    launch clause sleeps that interval and goes on with the loop, and the
    wrapper sleeps it and calls again.  If its message is a string and none of the
    three holds, both clauses re-raise the error, and a launch call
    failing with it ends the run in FAILED(FATAL_PROVIDER_ERROR) carrying
    it, with no further launch call. *)
Theorem other_errors_retry_or_reraise self e :
  code e <> "LimitExceeded" ->
  (retry_condition e ->
   sleepable (Config.wait_time_secs (config self)) ->
   (forall w,
      except_ServiceError self e w =
      (Return Continue, log (Sleep (Config.wait_time_secs (config self))) w)) /\
   (forall A (ep : Endpoint A) q w,
      _execute_api_call_loop (Config.wait_time_secs (config self)) ep
        (Error e :: q) w =
      _execute_api_call_loop (Config.wait_time_secs (config self)) ep q
        (log (Sleep (Config.wait_time_secs (config self)))
           (set_pending ep q (log (Call (method ep)) w))))) /\
  (forall m, message e = Some m -> ~ retry_condition e ->
   (forall w, except_ServiceError self e w = (Raise (ServiceErrorExn e), w)) /\
   (forall A (ep : Endpoint A) wait q w,
      _execute_api_call_loop wait ep (Error e :: q) w =
      (Raise (ServiceErrorExn e), set_pending ep q (log (Call (method ep)) w))) /\
   (forall q cyc ad cyc' d w,
      next cyc = Ok (ad, cyc') ->
      let run := launch_loop self (Error e :: q) cyc d w in
      acquisition_outcome (fst run) = Some (FAILED (FATAL_PROVIDER_ERROR e)) /\
      launch_q (snd run) = q /\
      launch_zones (trace (snd run)) = (launch_zones (trace w) ++ [ad])%list)).
Proof.
  intros Hcode. apply String.eqb_neq in Hcode.
  assert (HL : forall b, is_temporary e = Ok b ->
                 classify_launch e = Ok (if b then RETRYABLE else FATAL) /\
                 classify_wrapper e = Ok (if b then RETRYABLE else FATAL)).
  { intros b Hb. unfold classify_launch, classify_wrapper.
    rewrite Hcode, Hb. now destruct b. }
  split.
  - intros Hr Hw. apply is_temporary_true in Hr.
    destruct (HL true Hr) as [H1 H2]. split.
    + intros w. unfold except_ServiceError, bind. rewrite H1.
      now rewrite (sleep_accepted _ _ Hw).
    + intros A ep q w. cbn [_execute_api_call_loop]. rewrite H2.
      now rewrite (sleep_accepted _ _ Hw).
  - intros m Hm Hn. pose proof (is_temporary_false e m Hm Hn) as Hf.
    destruct (HL false Hf) as [H1 H2]. split; [|split].
    + intros w. unfold except_ServiceError. now rewrite H1.
    + intros A ep wait q w. cbn [_execute_api_call_loop]. now rewrite H2.
    + intros q cyc ad cyc' d w Hnext run. subst run.
      rewrite (launch_loop_fatal self e q cyc ad cyc' d w Hnext H1); cbn.
      repeat split. unfold launch_zones. rewrite flat_map_app. reflexivity.
Qed.

Lemma other_errors_retry_or_reraise_witness :
  let self := Sample.manager Sample.arm_config in
  (code Sample.not_found <> "LimitExceeded" /\
   ~ retry_condition Sample.not_found /\
   forall w, except_ServiceError self Sample.not_found w =
             (Raise (ServiceErrorExn Sample.not_found), w)) /\
  (code Sample.out_of_capacity <> "LimitExceeded" /\
   retry_condition Sample.out_of_capacity /\
   sleepable (Config.wait_time_secs (config self)) /\
   forall w, except_ServiceError self Sample.out_of_capacity w =
             (Return Continue, log (Sleep 60) w)).
Proof.
  intros self.
  assert (H1 : code Sample.not_found <> "LimitExceeded") by discriminate.
  assert (H2 : ~ retry_condition Sample.not_found).
  { intros H. apply is_temporary_true in H. discriminate H. }
  assert (H3 : code Sample.out_of_capacity <> "LimitExceeded") by discriminate.
  assert (H4 : retry_condition Sample.out_of_capacity).
  { left. simpl. tauto. }
  assert (H5 : sleepable (Config.wait_time_secs (config self)))
    by (unfold sleepable, SLEEP_SAFE; cbn; lia).
  split.
  - destruct (other_errors_retry_or_reraise self Sample.not_found H1) as [_ Hf].
    destruct (Hf _ eq_refl H2) as [Ha _]. repeat split; assumption.
  - destruct (other_errors_retry_or_reraise self Sample.out_of_capacity H3)
      as [Hr _].
    destruct (Hr H4 H5) as [Ha _].
    split; [exact H3|]. split; [exact H4|]. split; [exact H5 | exact Ha].
Defined.

(** ** A wait interval that a sleep refuses *)


